(** * Xade_trading: the exchange client of [src/lib/api.ts]

    A shallow embedding of the token ranker ([fetchTopTokens]), of the
    single-slot stream handle ([initializeWebSocket], [closeWebSocket] and the
    message handler), of the requests for one symbol ([fetchTokenPrice],
    [fetchCurrentPrice], [fetchMarketData], [fetchOrderBook]), of the two URL
    builders and of the formatters ([formatPrice], [formatPercentage],
    [formatVolume]), together with the ECMAScript built-ins they call, the
    properties the specification states about them, and further properties
    that the code has.

    Conventions of the embedding.
    - A JavaScript string is a [string]: a sequence of code units, here the
      code units U+0000..U+00FF (one [ascii] each).  Exchange symbols and
      decimal numerals live in that range.
    - A JavaScript number is an IEEE 754 binary64 value, a [spec_float] at
      precision 53 and maximal exponent 1024.
    - A thrown exception and a rejected promise are the [Throw] of a
      [completion]; [await] is the bind of that monad.
    - A value parsed from JSON is a [json]; [parseFloat] converts its
      argument by ToString, which throws a TypeError on an object that has a
      member [toString] (never a function in parsed JSON).
    - The bodies of the two responses have the types that the interfaces of
      the source give them, and the [limit] of [fetchTopTokens] is an
      integer.
    - [console.log] and [console.error] have no effect on any result and are
      left out. *)

From Stdlib Require Import ZArith Zpower Ascii String List DecimalString.
From Stdlib Require Import Sorted Permutation Lia SpecFloat Floats.
From stdpp Require Import gmap strings list sorting.

Set Warnings "-register-all,-inexact-float".

Open Scope Z_scope.

(** ** Strings *)

Definition code (c : ascii) : Z := Z.of_nat (nat_of_ascii c).

(** [String.prototype.toLowerCase] on the code units U+0000..U+00FF: the
    letters A-Z and the Latin-1 capitals U+00C0..U+00DE (the multiplication
    sign U+00D7 apart) move up by 32, every other code unit is its own lower
    case. *)
Definition lower_unit (c : ascii) : ascii :=
  let n := code c in
  if ((65 <=? n) && (n <=? 90)) || ((192 <=? n) && (n <=? 222) && negb (n =? 215))
  then ascii_of_nat (nat_of_ascii c + 32)
  else c.

Fixpoint toLowerCase (s : string) : string :=
  match s with
  | EmptyString => EmptyString
  | String c r => String (lower_unit c) (toLowerCase r)
  end.

(** [startsWith p s]: the code units of [p] are the first ones of [s]. *)
Fixpoint startsWith (p s : string) : bool :=
  match p, s with
  | EmptyString, _ => true
  | String a p', String b s' => if Ascii.eqb a b then startsWith p' s' else false
  | String _ _, EmptyString => false
  end.

(** [String.prototype.includes]: [p] occurs in [s] at some position. *)
Fixpoint includes (s p : string) : bool :=
  startsWith p s ||
  match s with
  | EmptyString => false
  | String _ r => includes r p
  end.

(** [Array.prototype.join] on an array of strings. *)
Fixpoint join (sep : string) (l : list string) : string :=
  match l with
  | [] => EmptyString
  | [s] => s
  | s :: r => s +:+ sep +:+ join sep r
  end.

(** [Array.prototype.includes] on an array of strings. *)
Definition array_includes (l : list string) (s : string) : bool :=
  existsb (String.eqb s) l.

(** ** Numbers *)

Abbreviation number := spec_float.

Definition prec : Z := 53.
Definition emax : Z := 1024.

Definition nan : number := S754_nan.
Definition zero : number := S754_zero false.
Definition infinity (neg : bool) : number := S754_infinity neg.

(** The binary64 value nearest to the ratio [p / q], ties to even, a ratio
    beyond the largest finite value giving an infinity: IEEE division of the
    two integers. *)
Definition number_of_ratio (neg : bool) (p q : positive) : number :=
  SFdiv prec emax (S754_finite neg p 0) (S754_finite false q 0).

(** The number written by a decimal numeral of mantissa [m >= 0] and decimal
    exponent [e]: the binary64 value nearest to [m * 10^e]. *)
Definition number_of_decimal (neg : bool) (m e : Z) : number :=
  match m with
  | Zpos p =>
      if 0 <=? e then number_of_ratio neg (p * Z.to_pos (10 ^ e)) 1
      else number_of_ratio neg p (Z.to_pos (10 ^ (- e)))
  | _ => S754_zero neg
  end.

(** The literals [1] and [0] of the source. *)
Definition one : number := Eval vm_compute in number_of_decimal false 1 0.

(** The exact value of a finite number is [m * 2^e]; two finite numbers are
    compared through their mantissas brought to the smaller exponent. *)
Definition scaled (neg : bool) (m : positive) (e ez : Z) : Z :=
  cond_Zopp neg (Zpos m * 2 ^ (e - ez)).

(** Comparison of two numbers by value; [None] when one of them is NaN.  The
    zeros of both signs are equal. *)
Definition num_compare (x y : number) : option comparison :=
  match x, y with
  | S754_finite sx mx ex, S754_finite sy my ey =>
      let ez := Z.min ex ey in
      Some (scaled sx mx ex ez ?= scaled sy my ey ez)
  | _, _ => SFcompare x y
  end.

(** The relational operators [<], [>], [>=], [===] and [!==] on numbers. *)
Definition num_lt (x y : number) : bool :=
  match num_compare x y with Some Lt => true | _ => false end.
Definition num_gt (x y : number) : bool := num_lt y x.
Definition num_ge (x y : number) : bool :=
  match num_compare x y with Some (Gt | Eq) => true | _ => false end.
Definition num_eq (x y : number) : bool :=
  match num_compare x y with Some Eq => true | _ => false end.
Definition num_neq (x y : number) : bool := negb (num_eq x y).

(** The binary operator [-]. *)
Definition num_sub (x y : number) : number := SFsub prec emax x y.

Definition is_nan (x : number) : bool :=
  match x with S754_nan => true | _ => false end.

(** *** parseFloat *)

(** The white space and line terminators of ECMAScript among the code units
    U+0000..U+00FF: TAB, LF, VT, FF, CR, SP and NBSP. *)
Definition is_white_space (c : ascii) : bool :=
  let n := code c in
  ((9 <=? n) && (n <=? 13)) || (n =? 32) || (n =? 160).

Fixpoint trimStart (s : string) : string :=
  match s with
  | String c r => if is_white_space c then trimStart r else s
  | EmptyString => s
  end.

Definition is_digit (c : ascii) : bool :=
  let n := code c in (48 <=? n) && (n <=? 57).

(** The longest run of decimal digits that starts [s], as digit values, and
    what follows it. *)
Fixpoint take_digits (s : string) : list Z * string :=
  match s with
  | String c r =>
      if is_digit c
      then let '(ds, rest) := take_digits r in ((code c - 48) :: ds, rest)
      else ([], s)
  | EmptyString => ([], s)
  end.

(** The mathematical value of a run of decimal digits. *)
Definition digits_value (ds : list Z) : Z :=
  fold_left (fun acc d => 10 * acc + d) ds 0.

(** An optional ExponentPart at the start of [s]: [e] or [E], an optional
    sign and at least one digit; when there is none the exponent is 0. *)
Definition exponent_part (s : string) : Z :=
  match s with
  | String c r =>
      if (code c =? 101) || (code c =? 69) then
        let '(neg, r') :=
          match r with
          | String "+" r' => (false, r')
          | String "-" r' => (true, r')
          | _ => (false, r)
          end in
        match take_digits r' with
        | ([], _) => 0
        | (ds, _) => cond_Zopp neg (digits_value ds)
        end
      else 0
  | EmptyString => 0
  end.

Inductive literal :=
  | LitInfinity
  | LitDecimal (mantissa exponent : Z).

(** The longest prefix of [s] that is a StrUnsignedDecimalLiteral:
    [Infinity], or digits with an optional fraction and exponent, or a
    fraction that starts with the point. *)
Definition StrUnsignedDecimalLiteral (s : string) : option literal :=
  if startsWith "Infinity" s then Some LitInfinity
  else
    let '(ip, r1) := take_digits s in
    let '(fp, r2) :=
      match r1 with
      | String "." r => take_digits r
      | _ => ([], r1)
      end in
    match ip, fp with
    | [], [] => None
    | _, _ =>
        Some (LitDecimal (digits_value (ip ++ fp))
                         (exponent_part r2 - Z.of_nat (length fp)))
    end.

(** [parseFloat] of a string: leading white space is dropped, the longest
    prefix that is a StrDecimalLiteral gives the number, and a string with no
    such prefix gives NaN. *)
Definition parseFloat_string (s : string) : number :=
  let t := trimStart s in
  let '(neg, u) :=
    match t with
    | String "+" r => (false, r)
    | String "-" r => (true, r)
    | _ => (false, t)
    end in
  match StrUnsignedDecimalLiteral u with
  | Some LitInfinity => infinity neg
  | Some (LitDecimal m e) => number_of_decimal neg m e
  | None => nan
  end.

(** *** Number::toString and Number.prototype.toFixed *)

(** The value of a positive finite number as a ratio of two integers. *)
Definition ratio_of (m : positive) (e : Z) : Z * Z :=
  if 0 <=? e then (Zpos m * 2 ^ e, 1) else (Zpos m, 2 ^ (- e)).

(** The ratio [pq] times [10^j]. *)
Definition scale10 (pq : Z * Z) (j : Z) : Z * Z :=
  let '(p, q) := pq in
  if 0 <=? j then (p * 10 ^ j, q) else (p, q * 10 ^ (- j)).

(** The integer [n] with [10^(n-1) <= x < 10^n], looked for downwards from
    [n]; binary64 values lie between [10^-324] and [10^309]. *)
Fixpoint decimal_exponent_from (fuel : nat) (n : Z) (x : Z * Z) : Z :=
  match fuel with
  | O => n
  | S fuel' =>
      let '(p, q) := scale10 x (1 - n) in
      if q <=? p then n else decimal_exponent_from fuel' (n - 1) x
  end.

Definition decimal_exponent (x : Z * Z) : Z := decimal_exponent_from 640 310 x.

(** The digits [s] of the shortest numeral [s * 10^(n-k)] that reads back as
    the number [m * 2^e], with their count [k]: for [k = 1, 2, ...] the two
    [k]-digit candidates around the value are tried, and of two that read
    back the nearer one is taken. *)
Fixpoint shortest_digits (fuel : nat) (k : Z) (m : positive) (e n : Z) : Z * Z :=
  let '(p, q) := scale10 (ratio_of m e) (k - n) in
  let lo := p / q in
  let hi := lo + 1 in
  let reads_back s := num_eq (number_of_decimal false s (n - k)) (S754_finite false m e) in
  match fuel with
  | O => (lo, k)
  | S fuel' =>
      if reads_back lo && (negb (reads_back hi) || (2 * p <=? (2 * lo + 1) * q))
      then (lo, k)
      else if reads_back hi then (hi, k)
      else shortest_digits fuel' (k + 1) m e n
  end.

(** The decimal digits of a natural number, ["0"] for 0. *)
Definition digits_string (n : Z) : string :=
  NilZero.string_of_uint (N.to_uint (Z.to_N n)).

Definition zeros (n : Z) : string :=
  string_of_list_ascii (repeat "0"%char (Z.to_nat n)).

Definition sub_string (from len : Z) (s : string) : string :=
  String.substring (Z.to_nat from) (Z.to_nat len) s.

(** Number::toString of the positive finite number [m * 2^e], radix 10. *)
Definition toString_positive (m : positive) (e : Z) : string :=
  let n0 := decimal_exponent (ratio_of m e) in
  let '(s0, k0) := shortest_digits 17 1 m e n0 in
  let '(s, k, n) := if s0 =? 10 ^ k0 then (1, 1, n0 + 1) else (s0, k0, n0) in
  let ds := digits_string s in
  if (k <=? n) && (n <=? 21) then ds +:+ zeros (n - k)
  else if (0 <? n) && (n <=? 21) then
    sub_string 0 n ds +:+ "." +:+ sub_string n (k - n) ds
  else if (-6 <? n) && (n <=? 0) then "0." +:+ zeros (- n) +:+ ds
  else
    let ex := n - 1 in
    let sign := if ex <? 0 then "-" else "+" in
    if k =? 1 then ds +:+ "e" +:+ sign +:+ digits_string (Z.abs ex)
    else sub_string 0 1 ds +:+ "." +:+ sub_string 1 (k - 1) ds
         +:+ "e" +:+ sign +:+ digits_string (Z.abs ex).

Definition Number_toString (x : number) : string :=
  match x with
  | S754_nan => "NaN"
  | S754_zero _ => "0"
  | S754_infinity false => "Infinity"
  | S754_infinity true => "-Infinity"
  | S754_finite neg m e => (if neg then "-" else "") +:+ toString_positive m e
  end.

(** The digits of the integer [n] with a point before the last [f] of them,
    zeros added in front so that a digit precedes the point. *)
Definition fixed_digits (n f : Z) : string :=
  let m := digits_string n in
  if f =? 0 then m
  else
    let k := Z.of_nat (String.length m) in
    let m := if k <=? f then zeros (f + 1 - k) +:+ m else m in
    let k := Z.max k (f + 1) in
    sub_string 0 (k - f) m +:+ "." +:+ sub_string (k - f) f m.

(** [Number.prototype.toFixed] with [f] fraction digits, [0 <= f <= 100]: a
    NaN or an infinity prints as Number::toString does; otherwise the sign,
    and for a magnitude below [10^21] the integer [n] nearest to the magnitude
    times [10^f], the larger of two equally near ones, with the point put
    before its last [f] digits. *)
Definition toFixed (x : number) (f : Z) : string :=
  match x with
  | S754_nan | S754_infinity _ => Number_toString x
  | S754_zero _ => fixed_digits 0 f
  | S754_finite neg m e =>
      let '(p, q) := ratio_of m e in
      (if neg then "-" else "") +:+
      (if 10 ^ 21 * q <=? p then toString_positive m e
       else fixed_digits ((2 * p * 10 ^ f + q) / (2 * q)) f)
  end.

(** ** Exceptions *)

Inductive error :=
  | TypeError
  | SyntaxError
  | Error (message : string)
  | NetworkFailure.

(** The completion of a computation: a value, or a thrown exception (for an
    awaited promise: fulfilled, or rejected). *)
Inductive completion (A : Type) :=
  | Normal (a : A)
  | Throw (e : error).
Arguments Normal {A} a.
Arguments Throw {A} e.

#[global] Instance completion_ret : MRet completion := @Normal.
#[global] Instance completion_bind : MBind completion :=
  fun A B f m => match m with Normal a => f a | Throw e => Throw e end.

(** [try { body } catch (error) { handler }]. *)
Definition try_catch {A} (body : completion A) (handler : error -> completion A)
  : completion A :=
  match body with
  | Normal a => Normal a
  | Throw e => handler e
  end.

(** [if (c) throw e]. *)
Definition throw_if (c : bool) (e : error) : completion unit :=
  if c then Throw e else Normal tt.

(** ** Values parsed from JSON *)

Inductive json :=
  | JNull
  | JBool (b : bool)
  | JNumber (n : number)
  | JString (s : string)
  | JArray (elements : list json)
  | JObject (members : list (string * json)).

(** The value of an expression over parsed JSON: [None] is [undefined]. *)
Definition value := option json.

(** The last member named [k] of an object, as JSON.parse keeps it. *)
Fixpoint member (k : string) (ms : list (string * json)) : value :=
  match ms with
  | [] => None
  | (k', v) :: r =>
      match member k r with
      | Some w => Some w
      | None => if String.eqb k k' then Some v else None
      end
  end.

(** ToString of a JSON value.  An object is converted through its
    [toString] and [valueOf]: a parsed object inherits both unless it has a
    member of that name, which is never a function; so an object without a
    member [toString] prints as [[object Object]], and one with such a member
    has no method left that gives a primitive, and the conversion throws a
    TypeError.  An array prints its elements joined by commas, a [null]
    element as the empty string, and throws when an element does. *)
Fixpoint json_ToString (v : json) : completion string :=
  match v with
  | JNull => Normal "null"
  | JBool true => Normal "true"
  | JBool false => Normal "false"
  | JNumber n => Normal (Number_toString n)
  | JString s => Normal s
  | JArray l =>
      parts ← mapM (fun x => match x with
                             | JNull => Normal ""
                             | _ => json_ToString x
                             end) l;
      mret (join "," parts)
  | JObject ms =>
      match member "toString" ms with
      | Some _ => Throw TypeError
      | None => Normal "[object Object]"
      end
  end.

Definition ToString (v : value) : completion string :=
  match v with
  | None => Normal "undefined"
  | Some j => json_ToString j
  end.

(** ToBoolean: [undefined], [null], [false], the zeros, NaN and the empty
    string are falsy. *)
Definition ToBoolean (v : value) : bool :=
  match v with
  | None | Some JNull => false
  | Some (JBool b) => b
  | Some (JNumber (S754_zero _ | S754_nan)) => false
  | Some (JNumber _) => true
  | Some (JString s) => negb (String.eqb s "")
  | Some (JArray _ | JObject _) => true
  end.

(** The global [parseFloat]: its argument is converted by ToString first,
    and the exception of the conversion is the one of the call. *)
Definition parseFloat (v : value) : completion number :=
  s ← ToString v;
  mret (parseFloat_string s).

(** The JSON values that ToString converts: all but the objects with a
    member [toString] and the arrays that hold, at any depth of arrays, such
    an object. *)
Fixpoint printable (v : json) : bool :=
  match v with
  | JArray l => forallb printable l
  | JObject ms =>
      match member "toString" ms with
      | Some _ => false
      | None => true
      end
  | _ => true
  end.

Definition value_printable (v : value) : bool :=
  match v with
  | None => true
  | Some j => printable j
  end.

(** The property access [v.k], for a name [k] that no built-in prototype
    defines (the source reads [data], [s] and [c]): reading a property of
    [undefined] or [null] throws a TypeError, an object gives its member, and
    any other value gives [undefined]. *)
Definition get (v : value) (k : string) : completion value :=
  match v with
  | None | Some JNull => Throw TypeError
  | Some (JObject ms) => Normal (member k ms)
  | Some _ => Normal None
  end.

(** ** Arrays *)

(** SortCompare of ECMAScript: the number the comparison function returns,
    a NaN counting as [+0]. *)
Definition SortCompare {A} (comparefn : A -> A -> number) (x y : A) : number :=
  let v := comparefn x y in
  if is_nan v then zero else v.

(** [Array.prototype.sort] with a comparison function.  ECMAScript asks for a
    stable sort and, for a comparison function that is not consistent on the
    array, leaves the order to the implementation; the model is the stable
    insertion sort: an element moves behind the elements it compares
    strictly greater than. *)
Fixpoint sort_insert {A} (comparefn : A -> A -> number) (x : A) (l : list A) : list A :=
  match l with
  | [] => [x]
  | y :: r =>
      if num_gt (SortCompare comparefn x y) zero
      then y :: sort_insert comparefn x r
      else x :: l
  end.

Definition sort {A} (comparefn : A -> A -> number) (l : list A) : list A :=
  foldr (sort_insert comparefn) [] l.

(** [Array.prototype.slice(start, end)] for integers: a negative index counts
    from the end of the array, and both are clamped to its bounds. *)
Definition relative_index (len i : Z) : Z :=
  if i <? 0 then Z.max (len + i) 0 else Z.min i len.

Definition slice {A} (l : list A) (start end_ : Z) : list A :=
  let len := Z.of_nat (length l) in
  let k := relative_index len start in
  let final := relative_index len end_ in
  take (Z.to_nat (final - k)) (drop (Z.to_nat k) l).

(** ** The records of the source *)

Module BinanceTicker.
Record t := mk {
  symbol : string;
  lastPrice : string;
  quoteVolume : string;
  priceChangePercent : string;
  volume : string
}.
End BinanceTicker.

Module BinancePair.
Record t := mk {
  symbol : string;
  baseAsset : string;
  quoteAsset : string;
  status : string
}.
End BinancePair.

(** The elements that [fetchTopTokens] sorts: [PairWithVolume & { priority }]. *)
Module Ranked.
Record t := mk {
  pair : BinancePair.t;
  volume : number;
  priority : number
}.
End Ranked.

Module Token.
Record t := mk {
  id : string;
  symbol : string;
  name : string;
  image : string;
  current_price : number;
  market_cap : number;
  market_cap_rank : number;
  price_change_percentage_24h : number;
  volume_24h : number;
  quoteAsset : string;
  baseAsset : string
}.
End Token.

Definition MAJOR_TOKENS : list string := [
  "BTC"; "ETH"; "BNB"; "XRP"; "ADA"; "DOGE"; "MATIC"; "SOL"; "DOT"; "LTC";
  "AVAX"; "LINK"; "UNI"; "ATOM"; "ETC"; "XLM"; "BCH"; "FIL"; "ALGO"; "ICP";
  "VET"; "MANA"; "SAND"; "AXS"; "THETA"; "XTZ"; "EOS"; "AAVE"; "CAKE"; "MKR";
  "SNX"; "COMP"; "YFI"; "SUSHI"; "1INCH"; "ENJ"; "BAT"; "ZIL"; "IOTA"; "NEO";
  "WAVES"; "DASH"; "ZEC"; "XMR"; "QTUM"; "ONT"; "IOST"; "OMG"; "ZRX"; "KNC"
]%string.

(** ** The network *)

(** What [response.json()] can hold, as the interfaces of the source type it:
    the exchange information with its [symbols], the array of 24h tickers, or
    any other JSON. *)
Inductive Body :=
  | ExchangeInfo (symbols : list BinancePair.t)
  | Tickers (tickers : list BinanceTicker.t)
  | OtherJson.

(** A response: its [ok] flag, and what [json()] settles to (it rejects on a
    body that is not JSON). *)
Record Response := mkResponse {
  ok : bool;
  json_body : completion Body
}.

(** [fetch(url)] settles to a response or rejects on a transport failure. *)
Definition Network := string -> completion Response.

Definition exchangeInfo_url : string := "https://api.binance.com/api/v3/exchangeInfo".
Definition ticker24hr_url : string := "https://api.binance.com/api/v3/ticker/24hr".

(** [data.symbols.filter]: only the exchange information has a [symbols]
    array; on any other body the call throws a TypeError. *)
Definition data_symbols (data : Body) : completion (list BinancePair.t) :=
  match data with
  | ExchangeInfo symbols => Normal symbols
  | _ => Throw TypeError
  end.

(** [tickerData.map]: only an array has [map]. *)
Definition ticker_array (tickerData : Body) : completion (list BinanceTicker.t) :=
  match tickerData with
  | Tickers l => Normal l
  | _ => Throw TypeError
  end.

(** ** fetchTopTokens *)

(** The predicate of the filter over [data.symbols]. *)
Definition is_usdt_pair (symbol : BinancePair.t) : bool :=
  String.eqb (BinancePair.quoteAsset symbol) "USDT" &&
  String.eqb (BinancePair.status symbol) "TRADING" &&
  negb (includes (BinancePair.symbol symbol) "DOWN") &&
  negb (includes (BinancePair.symbol symbol) "UP").

(** [new Map(tickerData.map(t => [t.symbol, t]))]: the entries are set in
    order, a later ticker replacing an earlier one of the same symbol. *)
Definition make_tickerMap (tickerData : list BinanceTicker.t)
  : gmap string BinanceTicker.t :=
  foldl (fun m t => <[BinanceTicker.symbol t := t]> m) ∅ tickerData.

(** [ticker?.field || '0']: the field of the ticker when there is one and
    the field is not the empty string, and ['0'] otherwise. *)
Definition field_or_0 (ticker : option BinanceTicker.t)
    (field : BinanceTicker.t -> string) : string :=
  match ticker with
  | Some t => if String.eqb (field t) "" then "0" else field t
  | None => "0"
  end.

(** The function mapped over [usdtPairs] before the sort. *)
Definition rank_pair (tickerMap : gmap string BinanceTicker.t)
    (pair : BinancePair.t) : Ranked.t :=
  let ticker := tickerMap !! BinancePair.symbol pair in
  let volume := parseFloat_string (field_or_0 ticker BinanceTicker.volume) in
  let priority :=
    if array_includes MAJOR_TOKENS (BinancePair.baseAsset pair) then one else zero in
  Ranked.mk pair volume priority.

(** The comparison function of the sort. *)
Definition compare_ranked (a b : Ranked.t) : number :=
  if num_neq (Ranked.priority a) (Ranked.priority b)
  then num_sub (Ranked.priority b) (Ranked.priority a)
  else num_sub (Ranked.volume b) (Ranked.volume a).

(** The function mapped over [sortedPairs] for the result. *)
Definition to_token (tickerMap : gmap string BinanceTicker.t)
    (r : Ranked.t) : Token.t :=
  let pair := Ranked.pair r in
  let ticker := tickerMap !! BinancePair.symbol pair in
  let baseAsset := BinancePair.baseAsset pair in
  {| Token.id := BinancePair.symbol pair;
     Token.symbol := baseAsset;
     Token.name := baseAsset;
     Token.image :=
       "https://cryptologos.cc/logos/" +:+ toLowerCase baseAsset +:+ "-logo.png";
     Token.current_price :=
       parseFloat_string (field_or_0 ticker BinanceTicker.lastPrice);
     Token.market_cap :=
       parseFloat_string (field_or_0 ticker BinanceTicker.quoteVolume);
     Token.market_cap_rank := zero;
     Token.price_change_percentage_24h :=
       parseFloat_string (field_or_0 ticker BinanceTicker.priceChangePercent);
     Token.volume_24h :=
       parseFloat_string (field_or_0 ticker BinanceTicker.volume);
     Token.quoteAsset := BinancePair.quoteAsset pair;
     Token.baseAsset := BinancePair.baseAsset pair |}.

(** The pairs kept, ranked, sorted and cut to the limit. *)
Definition sortedPairs (symbols : list BinancePair.t)
    (tickerMap : gmap string BinanceTicker.t) (limit : Z) : list Ranked.t :=
  let usdtPairs := filter (fun symbol => is_usdt_pair symbol) symbols in
  slice (sort compare_ranked (rank_pair tickerMap <$> usdtPairs)) 0 limit.

(** The body of the [try] block. *)
Definition fetchTopTokens_try (fetch : Network) (limit : Z)
  : completion (list Token.t) :=
  response ← fetch exchangeInfo_url;
  _ ← throw_if (negb (ok response))
        (Error "Failed to fetch exchange info from Binance");
  data ← json_body response;
  symbols ← data_symbols data;
  tickerResponse ← fetch ticker24hr_url;
  _ ← throw_if (negb (ok tickerResponse))
        (Error "Failed to fetch ticker data from Binance");
  tickerData ← json_body tickerResponse;
  tickers ← ticker_array tickerData;
  let tickerMap := make_tickerMap tickers in
  mret (to_token tickerMap <$> sortedPairs symbols tickerMap limit).

(** [fetchTopTokens(limit = 300)]: an omitted limit is 300, and the [catch]
    block turns every exception of the body into the empty array. *)
Definition fetchTopTokens (fetch : Network) (limit : option Z)
  : completion (list Token.t) :=
  try_catch (fetchTopTokens_try fetch (default 300 limit))
            (fun _ => Normal []).

(** ** The stream handle *)

Inductive ReadyState := CONNECTING | OPEN | CLOSING | CLOSED.

(** A connection object: its URL, its state, and whether the message handler
    of [initializeWebSocket] is installed on it. *)
Record WebSocket := mkWebSocket {
  url : string;
  readyState : ReadyState;
  has_onmessage : bool
}.

(** A connection is live while it is connecting or open. *)
Definition live (s : WebSocket) : bool :=
  match readyState s with
  | CONNECTING | OPEN => true
  | CLOSING | CLOSED => false
  end.

(** The calls made on connection objects, in the order they are made. *)
Inductive Call :=
  | CallClose (handle : nat)
  | CallNew (handle : nat) (url : string).

(** The hosting environment: whether [window] is defined, and the URLs its
    [WebSocket] constructor accepts (it throws on the others). *)
Record Env := mkEnv {
  window_defined : bool;
  accepts_url : string -> bool
}.

(** The state of the module: the connection objects created so far, named by
    their position, the module variable [ws] ([None] is [null]), and the
    calls made so far. *)
Record State := mkState {
  sockets : list WebSocket;
  ws : option nat;
  calls : list Call
}.

Definition initial_state : State := mkState [] None [].

(** [close()] on a connection object: a connecting or open connection starts
    closing, a closing or closed one is left as it is. *)
Definition close_socket (s : WebSocket) : WebSocket :=
  match readyState s with
  | CONNECTING | OPEN => mkWebSocket (url s) CLOSING (has_onmessage s)
  | CLOSING | CLOSED => s
  end.

(** [ws.close()] *)
Definition ws_close (handle : nat) (st : State) : State :=
  mkState (alter close_socket handle (sockets st)) (ws st)
          (calls st ++ [CallClose handle]).

(** [new WebSocket(url)] *)
Definition new_WebSocket (env : Env) (url : string) (st : State)
  : completion nat * State :=
  if accepts_url env url then
    let handle := length (sockets st) in
    (Normal handle,
     mkState (sockets st ++ [mkWebSocket url CONNECTING false]) (ws st)
             (calls st ++ [CallNew handle url]))
  else (Throw SyntaxError, st).

(** The subscription path of [initializeWebSocket]. *)
Definition streams_of (symbols : list string) : string :=
  join "/" ((fun symbol => toLowerCase symbol +:+ "@ticker") <$> symbols).

Definition stream_url (symbols : list string) : string :=
  "wss://stream.binance.com:9443/stream?streams=" +:+ streams_of symbols.

Definition set_onmessage (s : WebSocket) : WebSocket :=
  mkWebSocket (url s) (readyState s) true.

(** [initializeWebSocket(symbols)]: the result is the handle returned, or the
    exception of the constructor. *)
Definition initializeWebSocket (env : Env) (symbols : list string) (st : State)
  : completion nat * State :=
  let st1 := match ws st with Some old => ws_close old st | None => st end in
  match new_WebSocket env (stream_url symbols) st1 with
  | (Normal handle, st2) =>
      (Normal handle,
       mkState (alter set_onmessage handle (sockets st2)) (Some handle) (calls st2))
  | (Throw e, st2) => (Throw e, st2)
  end.

(** [closeWebSocket()] *)
Definition closeWebSocket (st : State) : State :=
  match ws st with
  | Some handle =>
      let st1 := ws_close handle st in
      mkState (sockets st1) None (calls st1)
  | None => st
  end.

(** What happens to a connection outside the two functions: the network
    opens a connecting one, a holder of the handle that [initializeWebSocket]
    returned calls [close] on it, and any connection that is not closed yet
    may end up closed. *)
Inductive network_moves : ReadyState -> ReadyState -> Prop :=
  | moves_open : network_moves CONNECTING OPEN
  | moves_closing rs : rs <> CLOSED -> network_moves rs CLOSING
  | moves_closed rs : rs <> CLOSED -> network_moves rs CLOSED.

(** One step of the module in its environment: a call of one of the two
    exported functions, or a move of one connection outside them. *)
Inductive step (env : Env) : State -> State -> Prop :=
  | step_initialize symbols st :
      step env st (snd (initializeWebSocket env symbols st))
  | step_close st :
      step env st (closeWebSocket st)
  | step_network st i s rs :
      sockets st !! i = Some s ->
      network_moves (readyState s) rs ->
      step env st
        (mkState (<[i := mkWebSocket (url s) rs (has_onmessage s)]> (sockets st))
                 (ws st) (calls st)).

Inductive reachable (env : Env) : State -> Prop :=
  | reachable_initial : reachable env initial_state
  | reachable_step st st' :
      reachable env st -> step env st st' -> reachable env st'.

(** At most one connection is live. *)
Definition at_most_one_live (st : State) : Prop :=
  forall i j s t,
    sockets st !! i = Some s -> sockets st !! j = Some t ->
    live s = true -> live t = true -> i = j.

(** *** The message handler *)

(** The [detail] of the event dispatched by the handler. *)
Record PriceUpdate := mkPriceUpdate {
  symbol : value;
  price : number
}.

(** [new CustomEvent(type, { detail })] *)
Inductive Event := CustomEvent (type : string) (detail : PriceUpdate).

(** The handler assigned to [ws.onmessage].  The message is given by what
    [JSON.parse(event.data)] completes with: the parsed value, or the
    SyntaxError of a text that is not JSON.  The result lists the events given
    to [window.dispatchEvent]. *)
Definition onmessage (env : Env) (parsed : completion json)
  : completion (list Event) :=
  data ← parsed;
  payload ← get (Some data) "data";
  if ToBoolean payload then
    if window_defined env then
      s ← get payload "s";
      c ← get payload "c";
      price ← parseFloat c;
      mret [CustomEvent "priceUpdate" (mkPriceUpdate s price)]
    else mret []
  else mret [].

(** ** Formatting *)

Definition formatPercentage (percentage : number) : string :=
  if num_gt percentage zero
  then "+" +:+ toFixed percentage 2 +:+ "%"
  else toFixed percentage 2 +:+ "%".

(** ** The requests for one symbol *)

(** The response of an endpoint whose body the source leaves untyped ([data]
    is [any]): its [ok] flag, and the JSON value that [json()] settles to. *)
Record Reply := mkReply {
  reply_ok : bool;
  reply_json : completion json
}.

Definition Endpoint := string -> completion Reply.

(** [String.prototype.replace] with a string pattern and a replacement that
    has no [$] in it: the first occurrence of the pattern is replaced. *)
Fixpoint skip (n : nat) (s : string) : string :=
  match n, s with
  | O, _ => s
  | S n', String _ r => skip n' r
  | S _, EmptyString => EmptyString
  end.

Fixpoint replace (s pattern replacement : string) : string :=
  if startsWith pattern s
  then replacement +:+ skip (String.length pattern) s
  else
    match s with
    | EmptyString => EmptyString
    | String c r => String c (replace r pattern replacement)
    end.

(** The element access [v[i]] on a JSON value: reading an element of [null]
    throws a TypeError, an array gives its element, a string the code unit at
    that place as a string, an object its member named by the decimal digits
    of [i], and what is out of range or any other value gives [undefined]. *)
Definition get_index (v : json) (i : nat) : completion value :=
  match v with
  | JNull => Throw TypeError
  | JArray l => Normal (l !! i)
  | JString s =>
      Normal (match String.get i s with
              | Some c => Some (JString (String c EmptyString))
              | None => None
              end)
  | JObject ms => Normal (member (digits_string (Z.of_nat i)) ms)
  | _ => Normal None
  end.

(** [v.map(f)]: only an array has [map]; the elements are mapped in order and
    the first exception of [f] is the one of the call. *)
Definition array_map {B} (v : value) (f : json -> completion B)
  : completion (list B) :=
  match v with
  | Some (JArray l) => mapM f l
  | _ => Throw TypeError
  end.

Definition price_url (symbol : string) : string :=
  "https://api.binance.com/api/v3/ticker/price?symbol=" +:+ symbol.

Definition fetchTokenPrice (fetch : Endpoint) (symbol : string)
  : completion (option number) :=
  try_catch
    (response ← fetch (price_url symbol);
     _ ← throw_if (negb (reply_ok response))
           (Error "Failed to fetch token price from Binance");
     data ← reply_json response;
     price ← get (Some data) "price";
     price ← parseFloat price;
     mret (Some price))
    (fun _ => Normal None).

Definition fetchCurrentPrice (fetch : Endpoint) (symbol : string)
  : completion number :=
  try_catch
    (response ← fetch (price_url symbol);
     _ ← throw_if (negb (reply_ok response)) (Error "Failed to fetch price");
     data ← reply_json response;
     price ← get (Some data) "price";
     price ← parseFloat price;
     mret price)
    (fun _ => Normal zero).

Module Market.
Record t := mk {
  id : string;
  symbol : string;
  name : string;
  current_price : number;
  market_cap : number;
  volume_24h : number;
  price_change_24h : number;
  high_24h : number;
  low_24h : number;
  circulating_supply : number;
  total_supply : number
}.
End Market.

Definition market_url (symbol : string) : string :=
  "https://api.binance.com/api/v3/ticker/24hr?symbol=" +:+ symbol.

Definition fetchMarketData (fetch : Endpoint) (symbol : string)
  : completion (option Market.t) :=
  try_catch
    (response ← fetch (market_url symbol);
     _ ← throw_if (negb (reply_ok response))
           (Error "Failed to fetch market data from Binance");
     data ← reply_json response;
     lastPrice ← get (Some data) "lastPrice";
     current_price ← parseFloat lastPrice;
     quoteVolume ← get (Some data) "quoteVolume";
     market_cap ← parseFloat quoteVolume;
     volume ← get (Some data) "volume";
     volume_24h ← parseFloat volume;
     priceChangePercent ← get (Some data) "priceChangePercent";
     price_change_24h ← parseFloat priceChangePercent;
     highPrice ← get (Some data) "highPrice";
     high_24h ← parseFloat highPrice;
     lowPrice ← get (Some data) "lowPrice";
     low_24h ← parseFloat lowPrice;
     mret (Some {|
       Market.id := symbol;
       Market.symbol := replace symbol "USDT" "";
       Market.name := replace symbol "USDT" "";
       Market.current_price := current_price;
       Market.market_cap := market_cap;
       Market.volume_24h := volume_24h;
       Market.price_change_24h := price_change_24h;
       Market.high_24h := high_24h;
       Market.low_24h := low_24h;
       Market.circulating_supply := zero;
       Market.total_supply := zero |}))
    (fun _ => Normal None).

Module Level.
Record t := mk {
  price : number;
  quantity : number
}.
End Level.

Module OrderBook.
Record t := mk {
  bids : list Level.t;
  asks : list Level.t
}.
End OrderBook.

Definition depth_url (symbol : string) : string :=
  "https://api.binance.com/api/v3/depth?symbol=" +:+ symbol +:+ "&limit=20".

(** The function mapped over [data.bids] and [data.asks]. *)
Definition level_of (entry : json) : completion Level.t :=
  p ← get_index entry 0;
  price ← parseFloat p;
  q ← get_index entry 1;
  quantity ← parseFloat q;
  mret (Level.mk price quantity).

Definition fetchOrderBook (fetch : Endpoint) (symbol : string)
  : completion OrderBook.t :=
  try_catch
    (response ← fetch (depth_url symbol);
     _ ← throw_if (negb (reply_ok response))
           (Error "Failed to fetch orderbook from Binance");
     data ← reply_json response;
     data_bids ← get (Some data) "bids";
     bids ← array_map data_bids level_of;
     data_asks ← get (Some data) "asks";
     asks ← array_map data_asks level_of;
     mret (OrderBook.mk bids asks))
    (fun _ => Normal (OrderBook.mk [] [])).

(** ** The URL builders *)

Definition getBinanceWebSocketUrl (symbol : string) : string :=
  "wss://stream.binance.com:9443/ws/" +:+ toLowerCase symbol +:+ "@depth20@100ms".

Definition getPriceWebSocketUrl (symbol : string) : string :=
  "wss://stream.binance.com:9443/ws/" +:+ toLowerCase symbol +:+ "@ticker".

(** ** formatPrice and formatVolume *)

(** The binary operator [/]. *)
Definition num_div (x y : number) : number := SFdiv prec emax x y.

(** The literals [0.01], [1_000], [1_000_000] and [1_000_000_000]. *)
Definition hundredth : number := Eval vm_compute in number_of_decimal false 1 (-2).
Definition thousand : number := Eval vm_compute in number_of_decimal false 1000 0.
Definition million : number := Eval vm_compute in number_of_decimal false 1000000 0.
Definition billion : number := Eval vm_compute in number_of_decimal false 1000000000 0.

Definition formatPrice (price : number) : string :=
  if num_ge price one then toFixed price 2
  else if num_ge price hundredth then toFixed price 4
  else toFixed price 8.

Definition formatVolume (volume : number) : string :=
  if num_ge volume billion then "$" +:+ toFixed (num_div volume billion) 2 +:+ "B"
  else if num_ge volume million then "$" +:+ toFixed (num_div volume million) 2 +:+ "M"
  else if num_ge volume thousand then "$" +:+ toFixed (num_div volume thousand) 2 +:+ "K"
  else "$" +:+ toFixed volume 2.

(** ** The order of the numbers and the rounding *)

Definition emin : Z := SpecFloat.emin prec emax.

(** A number whose exponent, when it is finite, is not below [emin]. *)
Definition well_formed (x : number) : Prop :=
  match x with
  | S754_finite _ _ e => emin <= e
  | _ => True
  end.

(** A number that is not NaN has a place in the order of the pairs of
    integers: the infinities at both ends, a finite number by its value in
    units of [2^emin]. *)
Definition key (x : number) : Z * Z :=
  match x with
  | S754_infinity true => (-1, 0)
  | S754_infinity false => (1, 0)
  | S754_finite s m e => (0, scaled s m e emin)
  | _ => (0, 0)
  end.

Definition key_le (a b : Z * Z) : Prop :=
  a.1 < b.1 \/ (a.1 = b.1 /\ a.2 <= b.2).

Definition key_lt (a b : Z * Z) : Prop :=
  a.1 < b.1 \/ (a.1 = b.1 /\ a.2 < b.2).

Definition key_compare (a b : Z * Z) : comparison :=
  match a.1 ?= b.1 with
  | Eq => a.2 ?= b.2
  | c => c
  end.

(** ** What the properties are stated with *)

(** The request to [url] succeeds with the body [b]. *)
Definition succeeds (fetch : Network) (url : string) (b : Body) : Prop :=
  fetch url = Normal (mkResponse true (Normal b)).

(** The request to [url] fails: a transport failure, or a response whose
    status is not a success. *)
Definition request_fails (fetch : Network) (url : string) : Prop :=
  (exists e, fetch url = Throw e) \/
  (exists response, fetch url = Normal response /\ ok response = false).

(** What a call returns when both requests succeed. *)
Definition ranked_tokens (symbols : list BinancePair.t)
    (tickers : list BinanceTicker.t) (limit : Z) : list Token.t :=
  let tickerMap := make_tickerMap tickers in
  to_token tickerMap <$> sortedPairs symbols tickerMap limit.

Definition is_major (baseAsset : string) : bool :=
  array_includes MAJOR_TOKENS baseAsset.

Definition ranked_major (a : Ranked.t) : bool :=
  is_major (BinancePair.baseAsset (Ranked.pair a)).

(** [a] may stand before [b]: a major asset before any other one and, inside
    one priority, the greater volume first. *)
Definition major_first (a b : Ranked.t) : Prop :=
  ranked_major b = true -> ranked_major a = true.

Definition rank_before (a b : Ranked.t) : Prop :=
  major_first a b /\
  (ranked_major a = ranked_major b ->
   num_ge (Ranked.volume a) (Ranked.volume b) = true).

(** The priority of a ranked element is the one of its base asset. *)
Definition priority_set (a : Ranked.t) : Prop :=
  Ranked.priority a = if ranked_major a then one else zero.

Definition volume_known (a : Ranked.t) : Prop :=
  priority_set a /\ well_formed (Ranked.volume a) /\ is_nan (Ranked.volume a) = false.

(** The tokens of major assets stand before all the others. *)
Definition majors_first (ts : list Token.t) : Prop :=
  forall (i j : nat) (a b : Token.t),
    ts !! i = Some a -> ts !! j = Some b ->
    is_major (Token.baseAsset a) = true ->
    is_major (Token.baseAsset b) = false ->
    (i < j)%nat.

(** Among the tokens of one priority the 24h volume never increases. *)
Definition volume_non_increasing (ts : list Token.t) : Prop :=
  forall (i j : nat) (a b : Token.t),
    (i < j)%nat -> ts !! i = Some a -> ts !! j = Some b ->
    is_major (Token.baseAsset a) = is_major (Token.baseAsset b) ->
    num_ge (Token.volume_24h a) (Token.volume_24h b) = true.

(** No instrument that passes the filter has a volume that parses to NaN. *)
Definition volumes_parse (fetch : Network) : Prop :=
  forall symbols tickers pair,
    succeeds fetch exchangeInfo_url (ExchangeInfo symbols) ->
    succeeds fetch ticker24hr_url (Tickers tickers) ->
    pair ∈ symbols -> is_usdt_pair pair = true ->
    is_nan (Ranked.volume (rank_pair (make_tickerMap tickers) pair)) = false.

(** The ranking as the specification states it. *)
Definition ranking_claim (fetch : Network) (limit : option Z) : Prop :=
  forall ts, fetchTopTokens fetch limit = Normal ts ->
    majors_first ts /\ volume_non_increasing ts.

(** The bound on the length as the specification states it. *)
Definition length_claim (fetch : Network) (limit : option Z) : Prop :=
  forall ts, fetchTopTokens fetch limit = Normal ts ->
    Z.of_nat (length ts) <= default 300 limit.

(** The numeric field of a token: 0 when the ticker is missing or its field
    is the empty string, and what [parseFloat] makes of the field otherwise. *)
Definition numeric_field (ticker : option BinanceTicker.t)
    (field : BinanceTicker.t -> string) : number :=
  match ticker with
  | Some t => if String.eqb (field t) "" then zero else parseFloat_string (field t)
  | None => zero
  end.

(** The default as the specification states it: a field of the ticker that
    does not parse as a number gives 0 in the token. *)
Definition parse_failure_gives_0 (ticker : BinanceTicker.t) (t : Token.t) : Prop :=
  (is_nan (parseFloat_string (BinanceTicker.lastPrice ticker)) = true ->
     Token.current_price t = zero) /\
  (is_nan (parseFloat_string (BinanceTicker.quoteVolume ticker)) = true ->
     Token.market_cap t = zero) /\
  (is_nan (parseFloat_string (BinanceTicker.volume ticker)) = true ->
     Token.volume_24h t = zero) /\
  (is_nan (parseFloat_string (BinanceTicker.priceChangePercent ticker)) = true ->
     Token.price_change_percentage_24h t = zero).

Definition default_claim (fetch : Network) (limit : option Z) : Prop :=
  forall tickers ts t ticker,
    succeeds fetch ticker24hr_url (Tickers tickers) ->
    fetchTopTokens fetch limit = Normal ts -> t ∈ ts ->
    make_tickerMap tickers !! Token.id t = Some ticker ->
    parse_failure_gives_0 ticker t.

(** The notification as the specification states it: every message whose
    body has a [data] member gives one [priceUpdate] event. *)
Definition notification_claim (env : Env) (body : json) : Prop :=
  forall payload,
    get (Some body) "data" = Normal (Some payload) ->
    exists s c price,
      get (Some payload) "s" = Normal s /\
      get (Some payload) "c" = Normal c /\
      parseFloat c = Normal price /\
      onmessage env (Normal body) =
        Normal [CustomEvent "priceUpdate" (mkPriceUpdate s price)].

(** Every live connection is the one the module variable holds. *)
Definition handle_is_only_live (st : State) : Prop :=
  forall i s, sockets st !! i = Some s -> live s = true -> ws st = Some i.

(** The handle held names a connection object. *)
Definition handle_valid (st : State) : Prop :=
  forall h, ws st = Some h -> (h < length (sockets st))%nat.

Definition no_live (st : State) : Prop :=
  forall i s, sockets st !! i = Some s -> live s = false.

(** The state in which [initializeWebSocket] calls the constructor. *)
Definition close_previous (st : State) : State :=
  match ws st with Some old => ws_close old st | None => st end.

(** ** Exchanges, messages and states to evaluate on *)

(** An exchange that answers both requests. *)
Definition exchange (symbols : list BinancePair.t) (tickers : list BinanceTicker.t)
  : Network :=
  fun url =>
    if String.eqb url exchangeInfo_url
    then Normal (mkResponse true (Normal (ExchangeInfo symbols)))
    else if String.eqb url ticker24hr_url
    then Normal (mkResponse true (Normal (Tickers tickers)))
    else Throw NetworkFailure.

(** An exchange that answers the catalog request with a failure status. *)
Definition exchange_status_500 (tickers : list BinanceTicker.t) : Network :=
  fun url =>
    if String.eqb url exchangeInfo_url
    then Normal (mkResponse false (Normal OtherJson))
    else Normal (mkResponse true (Normal (Tickers tickers))).

Definition usdt_pair (base : string) : BinancePair.t :=
  BinancePair.mk (base +:+ "USDT") base "USDT" "TRADING".

Definition ticker (symbol volume : string) : BinanceTicker.t :=
  BinanceTicker.mk symbol "1.5" "100" "0.5" volume.

(** A catalog of eight instruments, of which five pass the filter; DOGEUSDT
    has no ticker, and the ticker of ABCUSDT has an empty last price. *)
Definition sample_symbols : list BinancePair.t :=
  [ usdt_pair "XYZ"; usdt_pair "LTC"; usdt_pair "BTC"; usdt_pair "ABC";
    usdt_pair "DOGE";
    BinancePair.mk "BTCUPUSDT" "BTCUP" "USDT" "TRADING";
    BinancePair.mk "ETHBTC" "ETH" "BTC" "TRADING";
    BinancePair.mk "ETHUSDT" "ETH" "USDT" "BREAK" ].

Definition sample_tickers : list BinanceTicker.t :=
  [ ticker "XYZUSDT" "7"; ticker "LTCUSDT" "3.25"; ticker "BTCUSDT" "120.5";
    BinanceTicker.mk "ABCUSDT" "" "100" "0.5" "9000"; ticker "ETHUSDT" "55" ].

Definition sample_exchange : Network := exchange sample_symbols sample_tickers.

Definition sample_tokens : list Token.t :=
  Eval vm_compute in ranked_tokens sample_symbols sample_tickers 300.

(** The token of DOGEUSDT in that result. *)
Definition doge_token : Token.t :=
  Eval vm_compute in
    to_token (make_tickerMap sample_tickers)
             (rank_pair (make_tickerMap sample_tickers) (usdt_pair "DOGE")).

(** One instrument whose last price is not a numeral. *)
Definition unparsed_price_tickers : list BinanceTicker.t :=
  [BinanceTicker.mk "BTCUSDT" "abc" "100" "0.5" "120.5"].

Definition unparsed_price_exchange : Network :=
  exchange [usdt_pair "BTC"] unparsed_price_tickers.

Definition unparsed_price_tokens : list Token.t :=
  Eval vm_compute in ranked_tokens [usdt_pair "BTC"] unparsed_price_tickers 300.

(** Three instruments of no major asset; the volume of the second one is not
    a numeral. *)
Definition nan_volume_symbols : list BinancePair.t :=
  [usdt_pair "AAA"; usdt_pair "BBB"; usdt_pair "CCC"].

Definition nan_volume_tickers : list BinanceTicker.t :=
  [ticker "AAAUSDT" "1"; ticker "BBBUSDT" "abc"; ticker "CCCUSDT" "2"].

Definition nan_volume_exchange : Network :=
  exchange nan_volume_symbols nan_volume_tickers.

Definition nan_volume_tokens : list Token.t :=
  Eval vm_compute in ranked_tokens nan_volume_symbols nan_volume_tickers 300.

(** A browser, and an environment with no [window]; the constructor of both
    accepts every URL. *)
Definition browser : Env := mkEnv true (fun _ => true).
Definition no_window : Env := mkEnv false (fun _ => true).

(** The state after [initializeWebSocket(["BTCUSDT", "ETHUSDT"])]. *)
Definition two_streams : State :=
  snd (initializeWebSocket browser ["BTCUSDT"; "ETHUSDT"]%string initial_state).

(** The message [{data: {s: "BTCUSDT", c: "65000.12"}}]. *)
Definition btc_message : json :=
  JObject [("data", JObject [("s", JString "BTCUSDT"); ("c", JString "65000.12")])]%string.

(** The binary64 number that the numeral [65000.12] denotes:
    [8933548468354417 * 2^-37]. *)
Definition number_65000_12 : number := S754_finite false 8933548468354417 (-37).

(** ** What the further properties are stated with *)

(** The request to [url] is answered with a success status and the JSON
    value [data]. *)
Definition replied (fetch : Endpoint) (url : string) (data : json) : Prop :=
  fetch url = Normal (mkReply true (Normal data)).

(** An answer that serves the single-symbol readers: a success status and a
    JSON body other than [null]. *)
Definition answered (fetch : Endpoint) (url : string) : Prop :=
  exists data, replied fetch url data /\ data <> JNull.

(** An endpoint that always answers with the JSON value [data]. *)
Definition always (data : json) : Endpoint :=
  fun _ => Normal (mkReply true (Normal data)).

(** An endpoint whose requests are all rejected. *)
Definition offline : Endpoint := fun _ => Throw NetworkFailure.

Definition btc_price_body : json :=
  JObject [("symbol", JString "BTCUSDT"); ("price", JString "65000.12")]%string.

(** The elements of both sides of an order book reply are arrays or other
    values that can be indexed: none of them is [null]. *)
Definition book_reply (fetch : Endpoint) (symbol : string)
    (data_bids data_asks : list json) : Prop :=
  exists data,
    replied fetch (depth_url symbol) data /\
    get (Some data) "bids" = Normal (Some (JArray data_bids)) /\
    get (Some data) "asks" = Normal (Some (JArray data_asks)) /\
    (JNull ∉ data_bids) /\ (JNull ∉ data_asks).

(** The reply to the order book request is a body whose [bids] and [asks]
    are the arrays [data_bids] and [data_asks]. *)
Definition book_sides (fetch : Endpoint) (symbol : string)
    (data_bids data_asks : list json) : Prop :=
  exists data,
    replied fetch (depth_url symbol) data /\
    get (Some data) "bids" = Normal (Some (JArray data_bids)) /\
    get (Some data) "asks" = Normal (Some (JArray data_asks)).

(** The element [entry[i]] of an entry that is not [null]. *)
Definition entry_element (entry : json) (i : nat) : value :=
  match get_index entry i with
  | Normal v => v
  | Throw _ => None
  end.

(** The entries of which [level_of] makes a level: all but [null] and the
    entries whose first or second element ToString does not convert. *)
Definition level_readable (entry : json) : bool :=
  match entry with
  | JNull => false
  | _ => value_printable (entry_element entry 0) &&
         value_printable (entry_element entry 1)
  end.

(** [level_of] makes the level [level] of the entry [entry]. *)
Definition level_is (entry : json) (level : Level.t) : Prop :=
  level_of entry = Normal level.

(** A book with a level that cannot be read: its price is an object with a
    member [toString]. *)
Definition unreadable_book : json :=
  JObject [("bids", JArray [JArray [JObject [("toString", JNumber one)]; JString "2"]]);
           ("asks", JArray [])]%string.

(** A message whose [c] is an object with a member [toString]. *)
Definition unprintable_message : json :=
  JObject [("data", JObject [("s", JString "BTCUSDT");
                             ("c", JObject [("toString", JNumber one)])])]%string.

Definition sample_book : json :=
  JObject [("lastUpdateId", JNumber one);
           ("bids", JArray [JArray [JString "1.5"; JString "2"];
                            JArray [JString "1.4"; JString "3"]]);
           ("asks", JArray [JArray [JString "1.6"; JString "7"]])]%string.

(** Every code unit of [s] satisfies [P]. *)
Fixpoint all_units (P : ascii -> bool) (s : string) : bool :=
  match s with
  | EmptyString => true
  | String c r => P c && all_units P r
  end.

(** The last code unit of [s] is [c]. *)
Fixpoint ends_with_unit (c : ascii) (s : string) : bool :=
  match s with
  | EmptyString => false
  | String a EmptyString => Ascii.eqb a c
  | String _ r => ends_with_unit c r
  end.

(** A code unit other than the three suffixes of [formatVolume]. *)
Definition plain_unit (c : ascii) : bool :=
  negb (Ascii.eqb c "B" || Ascii.eqb c "M" || Ascii.eqb c "K").

(** A zero or a finite number whose magnitude is below [10^21], the range in
    which [toFixed] writes out all the digits. *)
Definition below_1e21 (x : number) : Prop :=
  match x with
  | S754_zero _ => True
  | S754_finite _ m e => (ratio_of m e).1 < 10 ^ 21 * (ratio_of m e).2
  | _ => False
  end.

(** The instruments of the catalog that pass the filter of [fetchTopTokens]. *)
Definition usdtPairs (symbols : list BinancePair.t) : list BinancePair.t :=
  filter (fun symbol => is_usdt_pair symbol) symbols.

(** The token that [fetchTopTokens] makes of an instrument. *)
Definition token_of (tickers : list BinanceTicker.t) (pair : BinancePair.t) : Token.t :=
  to_token (make_tickerMap tickers) (rank_pair (make_tickerMap tickers) pair).

(** Two instruments of no major asset with the same volume. *)
Definition tie_symbols : list BinancePair.t := [usdt_pair "ZZZ"; usdt_pair "AAA"].

Definition tie_tickers : list BinanceTicker.t :=
  [ticker "AAAUSDT" "5"; ticker "ZZZUSDT" "5.0"].

(** Two tickers of one symbol. *)
Definition twice_tickers : list BinanceTicker.t :=
  [ticker "BTCUSDT" "1"; ticker "ETHUSDT" "2"; ticker "BTCUSDT" "3"].

(** A connection as [initializeWebSocket] makes them: the message handler is
    installed, and the URL subscribes to the ticker streams of some symbols. *)
Definition subscribed (s : WebSocket) : Prop :=
  has_onmessage s = true /\ exists symbols, url s = stream_url symbols.

(** Every connection that was constructed is the one the module variable
    holds, or [close] was called on it. *)
Definition none_leaked (st : State) : Prop :=
  forall h u, CallNew h u ∈ calls st -> ws st = Some h \/ CallClose h ∈ calls st.

(** What a later state keeps of the connection [s]. *)
Definition continues (s s' : WebSocket) : Prop :=
  url s' = url s /\ has_onmessage s' = has_onmessage s /\
  (live s = false -> live s' = false).

(** An environment whose constructor refuses every URL. *)
Definition refusing : Env := mkEnv true (fun _ => false).

(** * Properties *)

(** ** Rounding keeps the sign *)

Section Rounding.

Local Abbreviation shr_fexp := (SpecFloat.shr_fexp prec emax).
Local Abbreviation fexp := (SpecFloat.fexp prec emax).
Local Abbreviation binary_round_aux := (SpecFloat.binary_round_aux prec emax).
Local Abbreviation binary_round := (SpecFloat.binary_round prec emax).
Local Abbreviation binary_normalize := (SpecFloat.binary_normalize prec emax).

Lemma digits2_pos_lower (m : positive) :
  2 ^ (Zpos (digits2_pos m) - 1) <= Zpos m.
Proof.
  induction m as [m IH | m IH |]; simpl digits2_pos.
  - rewrite Pos2Z.inj_succ.
    replace (Z.succ (Zpos (digits2_pos m)) - 1) with (Z.succ (Zpos (digits2_pos m) - 1)) by lia.
    rewrite Z.pow_succ_r by lia. lia.
  - rewrite Pos2Z.inj_succ.
    replace (Z.succ (Zpos (digits2_pos m)) - 1) with (Z.succ (Zpos (digits2_pos m) - 1)) by lia.
    rewrite Z.pow_succ_r by lia. lia.
  - simpl. lia.
Qed.

Lemma shr_1_m (r : shr_record) :
  0 <= shr_m r -> shr_m (shr_1 r) = shr_m r / 2.
Proof.
  destruct r as [m b s]. intros Hm. cbn [shr_m] in Hm.
  destruct m as [| [p | p |] | p]; cbn [shr_1 shr_m]; try lia.
  all: first [ apply Z.div_unique with 1; lia | apply Z.div_unique with 0; lia ].
Qed.

Lemma pow2_double (p : positive) : 2 ^ Zpos p~0 = 2 ^ Zpos p * 2 ^ Zpos p.
Proof. rewrite <- Z.pow_add_r by lia. f_equal. lia. Qed.

Lemma pow2_double_succ (p : positive) : 2 ^ Zpos p~1 = 2 * (2 ^ Zpos p * 2 ^ Zpos p).
Proof.
  rewrite <- Z.pow_add_r, <- Z.pow_succ_r by lia. f_equal. lia.
Qed.

Lemma iter_shr_1_m (p : positive) :
  forall r, 0 <= shr_m r ->
    shr_m (SpecFloat.iter_pos shr_1 p r) = shr_m r / 2 ^ Zpos p.
Proof.
  induction p as [p IH | p IH |]; intros r Hr; cbn [SpecFloat.iter_pos].
  - assert (H1 : 0 <= shr_m (shr_1 r)) by (rewrite shr_1_m by done; apply Z.div_pos; lia).
    assert (H2 : 0 <= shr_m (SpecFloat.iter_pos shr_1 p (shr_1 r)))
      by (rewrite IH by done; apply Z.div_pos; lia).
    rewrite IH, IH, shr_1_m by done.
    rewrite !Z.div_div by lia.
    by rewrite pow2_double_succ.
  - assert (H2 : 0 <= shr_m (SpecFloat.iter_pos shr_1 p r))
      by (rewrite IH by done; apply Z.div_pos; lia).
    rewrite IH, IH by done.
    rewrite Z.div_div by lia.
    by rewrite pow2_double.
  - by rewrite shr_1_m.
Qed.

Lemma shr_record_of_loc_m (m : Z) (l : location) :
  shr_m (shr_record_of_loc m l) = m.
Proof. by destruct l as [| []]. Qed.

(** Shifting a positive mantissa to its format exponent leaves it positive,
    when its exponent is not below [emin]. *)
Lemma shr_fexp_positive (m e : Z) (l : location) :
  0 < m -> emin <= e ->
  0 < shr_m (fst (shr_fexp m e l)) /\ emin <= snd (shr_fexp m e l).
Proof.
  intros Hm He. unfold SpecFloat.shr_fexp, shr.
  destruct m as [| p | p]; try lia. cbn [Zdigits2].
  pose proof (digits2_pos_lower p) as Hd.
  set (d := Zpos (digits2_pos p)) in *.
  assert (Hf : fexp (d + e) = Z.max (d + e - prec) emin) by done.
  destruct (fexp (d + e) - e) as [| n | n] eqn:Hn; cbn [fst snd].
  - by rewrite shr_record_of_loc_m.
  - rewrite iter_shr_1_m, shr_record_of_loc_m by (rewrite shr_record_of_loc_m; lia).
    assert (Hnd : Zpos n <= d - 1) by (unfold prec in *; lia).
    split; [| lia].
    apply Z.div_str_pos. split; [lia |].
    transitivity (2 ^ (d - 1)); [| done].
    apply Z.pow_le_mono_r; lia.
  - by rewrite shr_record_of_loc_m.
Qed.

(** The exponent that comes out of such a shift is never below [emin]. *)
Lemma shr_fexp_emin (m e : Z) (l : location) :
  emin <= snd (shr_fexp m e l).
Proof.
  unfold SpecFloat.shr_fexp, shr.
  assert (Hf : fexp (Zdigits2 m + e) = Z.max (Zdigits2 m + e - prec) emin) by done.
  destruct (fexp (Zdigits2 m + e) - e) as [| n | n] eqn:Hn; cbn [snd]; lia.
Qed.

Lemma round_nearest_even_ge (m : Z) (l : location) :
  m <= round_nearest_even m l.
Proof.
  destruct l as [| []]; cbn [round_nearest_even]; try lia.
  destruct (Z.even m); lia.
Qed.

(** Rounding a positive mantissa gives a finite number or an infinity of the
    sign asked for. *)
Lemma binary_round_aux_sign (s : bool) (m e : Z) (l : location) :
  0 < m -> emin <= e ->
  (exists m' e', binary_round_aux s m e l = S754_finite s m' e') \/
  binary_round_aux s m e l = S754_infinity s.
Proof.
  intros Hm He. unfold SpecFloat.binary_round_aux.
  destruct (shr_fexp_positive m e l Hm He) as [H1 H2].
  destruct (shr_fexp m e l) as [r1 e1]. cbn [fst snd] in H1, H2.
  pose proof (round_nearest_even_ge (shr_m r1) (loc_of_shr_record r1)) as Hr.
  set (m1 := round_nearest_even (shr_m r1) (loc_of_shr_record r1)) in *.
  destruct (shr_fexp_positive m1 e1 loc_Exact) as [H3 H4]; [lia | done |].
  destruct (shr_fexp m1 e1 loc_Exact) as [r2 e2]. cbn [fst snd] in H3, H4.
  destruct (shr_m r2) as [| m2 | m2]; try lia.
  destruct (e2 <=? emax - prec); eauto.
Qed.

(** Whatever is rounded, a finite result has its exponent at [emin] or above. *)
Lemma binary_round_aux_well_formed (s : bool) (m e : Z) (l : location) :
  well_formed (binary_round_aux s m e l).
Proof.
  unfold SpecFloat.binary_round_aux.
  destruct (shr_fexp m e l) as [r1 e1].
  set (m1 := round_nearest_even (shr_m r1) (loc_of_shr_record r1)).
  pose proof (shr_fexp_emin m1 e1 loc_Exact) as H.
  destruct (shr_fexp m1 e1 loc_Exact) as [r2 e2]. cbn [snd] in H.
  destruct (shr_m r2); try done.
  by destruct (e2 <=? emax - prec).
Qed.

Lemma shl_align_fst (mx : positive) (ex ez : Z) :
  ez <= ex -> Zpos (fst (shl_align mx ex ez)) = Zpos mx * 2 ^ (ex - ez).
Proof.
  intros H. unfold shl_align.
  destruct (ez - ex) as [| d | d] eqn:Hd; cbn [fst]; try lia.
  - replace (ex - ez) with 0 by lia. lia.
  - replace (ex - ez) with (Zpos d) by lia.
    change (Pos.iter xO mx d) with (shift_pos d mx).
    rewrite shift_pos_correct. apply Z.mul_comm.
Qed.

Lemma shl_align_snd (mx : positive) (ex ez : Z) :
  emin <= ex -> emin <= ez -> emin <= snd (shl_align mx ex ez).
Proof.
  intros H1 H2. unfold shl_align. by destruct (ez - ex).
Qed.

Lemma binary_round_sign (s : bool) (m : positive) (e : Z) :
  emin <= e ->
  (exists m' e', binary_round s m e = S754_finite s m' e') \/
  binary_round s m e = S754_infinity s.
Proof.
  intros He. unfold SpecFloat.binary_round.
  pose proof (shl_align_snd m e (fexp (Zpos (digits2_pos m) + e)) He) as H.
  destruct (shl_align m e (fexp (Zpos (digits2_pos m) + e))) as [mz ez].
  apply binary_round_aux_sign; [lia |].
  apply H. unfold SpecFloat.fexp. fold emin. lia.
Qed.

(** A difference is positive exactly when the first number is the greater. *)
Lemma num_sub_positive (x y : number) :
  well_formed x -> well_formed y ->
  num_gt (num_sub x y) zero = num_gt x y.
Proof.
  intros Hx Hy.
  destruct x as [sx | sx | | sx mx ex], y as [sy | sy | | sy my ey];
    try (by repeat match goal with b : bool |- _ => destruct b end).
  cbn [well_formed] in Hx, Hy.
  unfold num_sub, SFsub.
  rewrite !shl_align_fst by lia.
  fold (scaled sx mx ex (Z.min ex ey)). fold (scaled sy my ey (Z.min ex ey)).
  unfold num_gt at 2. unfold num_lt at 1. cbn [num_compare].
  rewrite (Z.min_comm ey ex).
  set (a := scaled sx mx ex (Z.min ex ey)). set (b := scaled sy my ey (Z.min ex ey)).
  destruct (a - b) as [| p | p] eqn:Hab; cbn [SpecFloat.binary_normalize].
  - replace b with a by lia. by rewrite Z.compare_refl.
  - replace (b ?= a) with Lt by (symmetry; apply Z.compare_lt_iff; lia).
    destruct (binary_round_sign false p (Z.min ex ey)) as [(m' & e' & ->) | ->]; [lia | done | done].
  - replace (b ?= a) with Gt by (symmetry; apply Z.compare_gt_iff; lia).
    destruct (binary_round_sign true p (Z.min ex ey)) as [(m' & e' & ->) | ->]; [lia | done | done].
Qed.

Lemma SortCompare_positive {A} (f : A -> A -> number) (x y : A) :
  num_gt (SortCompare f x y) zero = num_gt (f x y) zero.
Proof. unfold SortCompare. by destruct (f x y). Qed.

(** [parseFloat] only gives numbers with their exponent in range. *)
Lemma parseFloat_string_well_formed (s : string) :
  well_formed (parseFloat_string s).
Proof.
  unfold parseFloat_string.
  destruct (match trimStart s with
            | String "+" r => (false, r)
            | String "-" r => (true, r)
            | _ => (false, trimStart s)
            end) as [neg u].
  destruct (StrUnsignedDecimalLiteral u) as [[| m e] |]; try done.
  unfold number_of_decimal.
  destruct m as [| p | p]; try done.
  destruct (0 <=? e); unfold number_of_ratio, SFdiv;
    match goal with
    | |- context [SFdiv_core_binary ?a ?b ?c ?d ?e ?f] =>
        destruct (SFdiv_core_binary a b c d e f) as [[mz ez] lz]
    end; apply binary_round_aux_well_formed.
Qed.
End Rounding.

(** ** The order of the numbers *)

Lemma scaled_emin (s : bool) (m : positive) (e ez : Z) :
  emin <= ez -> ez <= e ->
  scaled s m e emin = scaled s m e ez * 2 ^ (ez - emin).
Proof.
  intros H1 H2. unfold scaled.
  replace (e - emin) with ((e - ez) + (ez - emin)) by lia.
  rewrite Z.pow_add_r by lia.
  destruct s; cbn [cond_Zopp]; lia.
Qed.

Lemma scaled_sign (s : bool) (m : positive) (e ez : Z) :
  ez <= e -> if s then scaled s m e ez < 0 else 0 < scaled s m e ez.
Proof.
  intros H. unfold scaled.
  assert (0 < Zpos m * 2 ^ (e - ez)).
  { apply Z.mul_pos_pos; [done |]. apply Z.pow_pos_nonneg; lia. }
  destruct s; cbn [cond_Zopp]; lia.
Qed.

(** On numbers that are not NaN the comparison is the one of the keys. *)
Lemma num_compare_key (x y : number) :
  well_formed x -> well_formed y -> is_nan x = false -> is_nan y = false ->
  num_compare x y = Some (key_compare (key x) (key y)).
Proof.
  intros Hx Hy Nx Ny.
  destruct x as [sx | sx | | sx mx ex], y as [sy | sy | | sy my ey];
    try discriminate; cbn [well_formed] in Hx, Hy.
  all: try (by repeat match goal with b : bool |- _ => destruct b end).
  - pose proof (scaled_sign sy my ey emin Hy) as H.
    unfold key_compare; cbn [key fst snd num_compare SFcompare].
    rewrite Z.compare_refl. destruct sy; f_equal; symmetry.
    + by apply Z.compare_gt_iff.
    + by apply Z.compare_lt_iff.
  - pose proof (scaled_sign sx mx ex emin Hx) as H.
    unfold key_compare; cbn [key fst snd num_compare SFcompare].
    rewrite Z.compare_refl. destruct sx; f_equal; symmetry.
    + by apply Z.compare_lt_iff.
    + by apply Z.compare_gt_iff.
  - cbn [num_compare]. f_equal. unfold key_compare; cbn [key fst snd].
    rewrite Z.compare_refl.
    rewrite (scaled_emin sx mx ex (Z.min ex ey)), (scaled_emin sy my ey (Z.min ex ey)) by lia.
    apply Zmult_compare_compat_r.
    apply Z.lt_gt. apply Z.pow_pos_nonneg; lia.
Qed.

Lemma key_compare_lt (a b : Z * Z) : key_compare a b = Lt <-> key_lt a b.
Proof.
  unfold key_compare, key_lt.
  destruct (Z.compare_spec a.1 b.1), (Z.compare_spec a.2 b.2); split; intros; (done || lia).
Qed.

Lemma key_compare_le (a b : Z * Z) : key_compare a b <> Gt <-> key_le a b.
Proof.
  unfold key_compare, key_le.
  destruct (Z.compare_spec a.1 b.1), (Z.compare_spec a.2 b.2); split; intros; (done || lia).
Qed.

Lemma key_compare_antisym (a b : Z * Z) :
  key_compare b a = CompOpp (key_compare a b).
Proof.
  unfold key_compare. rewrite (Z.compare_antisym a.1 b.1), (Z.compare_antisym a.2 b.2).
  by destruct (a.1 ?= b.1).
Qed.

Lemma num_gt_key (x y : number) :
  well_formed x -> well_formed y -> is_nan x = false -> is_nan y = false ->
  num_gt x y = true <-> key_lt (key y) (key x).
Proof.
  intros Hx Hy Nx Ny. rewrite <- key_compare_lt.
  unfold num_gt, num_lt. rewrite num_compare_key by done.
  by destruct (key_compare (key y) (key x)).
Qed.

Lemma num_ge_key (x y : number) :
  well_formed x -> well_formed y -> is_nan x = false -> is_nan y = false ->
  num_ge x y = true <-> key_le (key y) (key x).
Proof.
  intros Hx Hy Nx Ny. rewrite <- key_compare_le.
  unfold num_ge. rewrite num_compare_key by done.
  rewrite (key_compare_antisym (key x) (key y)).
  by destruct (key_compare (key x) (key y)).
Qed.

(** ** Array.prototype.sort *)

Section Sort.
Context {A : Type} (comparefn : A -> A -> number).

Lemma sort_insert_Permutation (x : A) (l : list A) :
  sort_insert comparefn x l ≡ₚ x :: l.
Proof.
  induction l as [| y r IH]; cbn [sort_insert]; [done |].
  destruct (num_gt (SortCompare comparefn x y) zero); [| done].
  rewrite IH. apply Permutation_swap.
Qed.

Lemma sort_Permutation (l : list A) : sort comparefn l ≡ₚ l.
Proof.
  induction l as [| x l IH]; [done |].
  cbn [sort foldr]. fold (sort comparefn l).
  by rewrite sort_insert_Permutation, IH.
Qed.

Lemma sort_length (l : list A) : length (sort comparefn l) = length l.
Proof. by rewrite sort_Permutation. Qed.

(** When, on the elements that satisfy [P], the comparison function agrees
    with a transitive relation [R], sorting puts them in the order [R]. *)
Section Sorted.
Variables (P : A -> Prop) (R : A -> A -> Prop).
Hypothesis R_trans :
  forall x y z, P x -> P y -> P z -> R x y -> R y z -> R x z.
Hypothesis R_later :
  forall x y, P x -> P y ->
    num_gt (SortCompare comparefn x y) zero = true -> R y x.
Hypothesis R_earlier :
  forall x y, P x -> P y ->
    num_gt (SortCompare comparefn x y) zero = false -> R x y.

Lemma sort_insert_StronglySorted (x : A) (l : list A) :
  P x -> Forall P l -> StronglySorted R l ->
  StronglySorted R (sort_insert comparefn x l).
Proof.
  intros Px. induction l as [| y r IH]; intros HP HS; cbn [sort_insert].
  - repeat constructor.
  - apply Forall_cons in HP as [Py HP].
    apply StronglySorted_inv in HS as [HS Hy].
    destruct (num_gt (SortCompare comparefn x y) zero) eqn:Hc.
    + constructor; [by apply IH |].
      rewrite sort_insert_Permutation. constructor; [by apply R_later | done].
    + constructor; [by constructor |].
      constructor; [by apply R_earlier |].
      rewrite Forall_forall in Hy, HP |- *. intros z Hz.
      apply (R_trans x y z); auto.
Qed.

Lemma sort_StronglySorted (l : list A) :
  Forall P l -> StronglySorted R (sort comparefn l).
Proof.
  induction l as [| x l IH]; intros HP; [constructor |].
  apply Forall_cons in HP as [Px HP].
  cbn [sort foldr]. fold (sort comparefn l).
  apply sort_insert_StronglySorted; [done | | by apply IH].
  by rewrite sort_Permutation.
Qed.
End Sorted.
End Sort.

Lemma StronglySorted_lookup {A} (R : A -> A -> Prop) (l : list A) (i j : nat) (a b : A) :
  StronglySorted R l -> (i < j)%nat -> l !! i = Some a -> l !! j = Some b -> R a b.
Proof.
  intros HS. revert i j. induction HS as [| x l HS IH Hx]; intros i j Hij Hi Hj.
  - by rewrite lookup_nil in Hi.
  - destruct j as [| j]; [lia |]. cbn in Hj.
    destruct i as [| i]; cbn in Hi.
    + injection Hi as ->. rewrite Forall_forall in Hx. apply Hx.
      by eapply list_elem_of_lookup_2.
    + apply (IH i j); [lia | done | done].
Qed.

(** ** Array.prototype.slice *)

Lemma slice_0_take {A} (l : list A) (end_ : Z) :
  slice l 0 end_ = take (Z.to_nat (relative_index (Z.of_nat (length l)) end_)) l.
Proof.
  unfold slice. 
  assert (H : relative_index (Z.of_nat (length l)) 0 = 0).
  { unfold relative_index. cbn. lia. }
  rewrite H. cbn [Z.to_nat drop]. by rewrite Z.sub_0_r.
Qed.

Lemma slice_0_length {A} (l : list A) (end_ : Z) :
  0 <= end_ -> Z.of_nat (length (slice l 0 end_)) <= end_.
Proof.
  intros H. rewrite slice_0_take, length_take. unfold relative_index.
  destruct (Z.ltb_spec end_ 0); lia.
Qed.

Lemma fetchTopTokens_succeeds (fetch : Network) (limit : option Z) symbols tickers :
  succeeds fetch exchangeInfo_url (ExchangeInfo symbols) ->
  succeeds fetch ticker24hr_url (Tickers tickers) ->
  fetchTopTokens fetch limit = Normal (ranked_tokens symbols tickers (default 300 limit)).
Proof.
  unfold succeeds, fetchTopTokens, fetchTopTokens_try. intros -> ->. done.
Qed.

(** A call returns the ranking of two successful responses, or the empty
    array; it never throws. *)
Lemma fetchTopTokens_cases (fetch : Network) (limit : option Z) :
  (exists symbols tickers,
      succeeds fetch exchangeInfo_url (ExchangeInfo symbols) /\
      succeeds fetch ticker24hr_url (Tickers tickers) /\
      fetchTopTokens fetch limit =
        Normal (ranked_tokens symbols tickers (default 300 limit))) \/
  fetchTopTokens fetch limit = Normal [].
Proof.
  unfold fetchTopTokens, fetchTopTokens_try, succeeds.
  destruct (fetch exchangeInfo_url) as [[[] [[symbols | |] |]] |] eqn:H1; try (by right).
  destruct (fetch ticker24hr_url) as [[[] [[| tickers |] |]] |] eqn:H2; try (by right).
  left. by exists symbols, tickers.
Qed.

Lemma compare_ranked_positive (a b : Ranked.t) :
  priority_set a -> priority_set b ->
  num_gt (SortCompare compare_ranked a b) zero =
    match ranked_major a, ranked_major b with
    | true, false => false
    | false, true => true
    | _, _ => num_gt (num_sub (Ranked.volume b) (Ranked.volume a)) zero
    end.
Proof.
  unfold priority_set. intros Ha Hb.
  rewrite SortCompare_positive. unfold compare_ranked. rewrite Ha, Hb.
  by destruct (ranked_major a), (ranked_major b).
Qed.

Lemma major_first_sorted (l : list Ranked.t) :
  Forall priority_set l -> StronglySorted major_first (sort compare_ranked l).
Proof.
  apply sort_StronglySorted.
  - unfold major_first. auto.
  - intros x y Hx Hy. rewrite compare_ranked_positive by done.
    unfold major_first. by destruct (ranked_major x), (ranked_major y).
  - intros x y Hx Hy. rewrite compare_ranked_positive by done.
    unfold major_first. by destruct (ranked_major x), (ranked_major y).
Qed.

Lemma rank_before_sorted (l : list Ranked.t) :
  Forall volume_known l -> StronglySorted rank_before (sort compare_ranked l).
Proof.
  apply sort_StronglySorted.
  - intros x y z (_ & Wx & Nx) (_ & Wy & Ny) (_ & Wz & Nz) [P1 V1] [P2 V2].
    split; [unfold major_first in *; auto |].
    intros Hxz. unfold major_first in P1, P2.
    assert (Hxy : ranked_major x = ranked_major y).
    { destruct (ranked_major x), (ranked_major y), (ranked_major z);
        auto; try done; symmetry; auto. }
    specialize (V1 Hxy). specialize (V2 (eq_trans (eq_sym Hxy) Hxz)).
    rewrite num_ge_key in V1, V2 |- * by done.
    unfold key_le in *. lia.
  - intros x y (Hx & Wx & Nx) (Hy & Wy & Ny).
    rewrite compare_ranked_positive by done.
    unfold rank_before, major_first.
    destruct (ranked_major x), (ranked_major y); try done; rewrite num_sub_positive by done.
    all: intros H; split; [done |]; intros _.
    all: rewrite num_gt_key in H by done; rewrite num_ge_key by done.
    all: unfold key_le, key_lt in *; lia.
  - intros x y (Hx & Wx & Nx) (Hy & Wy & Ny).
    rewrite compare_ranked_positive by done.
    unfold rank_before, major_first.
    destruct (ranked_major x), (ranked_major y); try done; rewrite num_sub_positive by done.
    all: intros H; split; [done |]; intros _.
    all: apply not_true_iff_false in H; rewrite num_gt_key in H by done.
    all: rewrite num_ge_key by done.
    all: unfold key_le, key_lt in *; lia.
Qed.

(** The elements that are sorted, and the cut to the limit. *)
Lemma sortedPairs_take symbols tickerMap limit :
  exists n,
    sortedPairs symbols tickerMap limit =
      take n (sort compare_ranked
                (rank_pair tickerMap <$> filter (fun symbol => is_usdt_pair symbol) symbols)).
Proof. unfold sortedPairs. rewrite slice_0_take. eauto. Qed.

Lemma StronglySorted_take {A} (R : A -> A -> Prop) (n : nat) (l : list A) :
  StronglySorted R l -> StronglySorted R (take n l).
Proof.
  intros H. rewrite <- (take_drop n l) in H.
  by apply StronglySorted_app_1_l in H.
Qed.

Lemma sortedPairs_elem_of symbols tickerMap limit r :
  r ∈ sortedPairs symbols tickerMap limit ->
  exists pair, pair ∈ symbols /\ is_usdt_pair pair = true /\ r = rank_pair tickerMap pair.
Proof.
  destruct (sortedPairs_take symbols tickerMap limit) as [n ->].
  intros H. apply (subseteq_take n) in H.
  rewrite sort_Permutation in H.
  apply list_elem_of_fmap in H as (pair & -> & H).
  apply list_elem_of_filter in H as [H1 H2].
  exists pair. split_and!; [done | by apply Is_true_true | done].
Qed.

Lemma ranked_tokens_lookup symbols tickers limit i t :
  ranked_tokens symbols tickers limit !! i = Some t ->
  exists r pair,
    sortedPairs symbols (make_tickerMap tickers) limit !! i = Some r /\
    pair ∈ symbols /\ is_usdt_pair pair = true /\
    r = rank_pair (make_tickerMap tickers) pair /\
    t = to_token (make_tickerMap tickers) r.
Proof.
  unfold ranked_tokens. intros H.
  apply list_lookup_fmap_Some in H as (r & -> & Hr).
  destruct (sortedPairs_elem_of symbols (make_tickerMap tickers) limit r)
    as (pair & H1 & H2 & H3); [by eapply list_elem_of_lookup_2 |].
  by exists r, pair.
Qed.

Lemma rank_pair_priority_set tickerMap pair : priority_set (rank_pair tickerMap pair).
Proof. done. Qed.

Lemma ranked_tokens_majors_first symbols tickers limit :
  majors_first (ranked_tokens symbols tickers limit).
Proof.
  set (tm := make_tickerMap tickers).
  assert (HS : StronglySorted major_first (sortedPairs symbols tm limit)).
  { destruct (sortedPairs_take symbols tm limit) as [n ->].
    apply StronglySorted_take, major_first_sorted.
    apply Forall_fmap, Forall_forall. intros p _. apply rank_pair_priority_set. }
  intros i j a b Hi Hj Ha Hb.
  apply ranked_tokens_lookup in Hi as (ra & pa & Hi & _ & _ & _ & ->).
  apply ranked_tokens_lookup in Hj as (rb & pb & Hj & _ & _ & _ & ->).
  cbn [to_token Token.baseAsset] in Ha, Hb.
  destruct (Nat.lt_trichotomy i j) as [Hlt | [-> | Hgt]]; [done | |].
  - rewrite Hi in Hj. injection Hj as ->. congruence.
  - pose proof (StronglySorted_lookup _ _ _ _ _ _ HS Hgt Hj Hi) as H.
    unfold major_first, ranked_major in H. rewrite (H Ha) in Hb. done.
Qed.

Lemma ranked_tokens_volume_non_increasing symbols tickers limit :
  (forall pair, pair ∈ symbols -> is_usdt_pair pair = true ->
     is_nan (Ranked.volume (rank_pair (make_tickerMap tickers) pair)) = false) ->
  volume_non_increasing (ranked_tokens symbols tickers limit).
Proof.
  intros Hnan. set (tm := make_tickerMap tickers).
  assert (HS : StronglySorted rank_before (sortedPairs symbols tm limit)).
  { destruct (sortedPairs_take symbols tm limit) as [n ->].
    apply StronglySorted_take, rank_before_sorted.
    apply Forall_fmap, Forall_forall. intros p Hp.
    apply list_elem_of_filter in Hp as [H1 H2]. apply Is_true_true in H1.
    split_and!; [done | apply parseFloat_string_well_formed | by apply Hnan]. }
  intros i j a b Hij Hi Hj Hab.
  apply ranked_tokens_lookup in Hi as (ra & pa & Hi & _ & _ & Ea & ->).
  apply ranked_tokens_lookup in Hj as (rb & pb & Hj & _ & _ & Eb & ->).
  destruct (StronglySorted_lookup _ _ _ _ _ _ HS Hij Hi Hj) as [_ H].
  cbn [to_token Token.baseAsset Token.volume_24h] in Hab |- *.
  specialize (H Hab). by subst ra rb.
Qed.

Lemma succeeds_inj fetch url b1 b2 :
  succeeds fetch url b1 -> succeeds fetch url b2 -> b1 = b2.
Proof. unfold succeeds. intros -> H. by injection H. Qed.

Lemma sample_exchange_tokens :
  fetchTopTokens sample_exchange None = Normal sample_tokens.
Proof. vm_compute. reflexivity. Qed.

(** ** The numeric fields of a token *)

Lemma field_or_0_numeric ticker field :
  parseFloat_string (field_or_0 ticker field) = numeric_field ticker field.
Proof.
  unfold field_or_0, numeric_field. destruct ticker as [t |]; [| done].
  by destruct (String.eqb (field t) "").
Qed.

(** Claim C1, as amended.  Each numeric field of a token is 0 when the ticker
    of its instrument is missing or the field is the empty string, and is
    otherwise what [parseFloat] makes of the field: NaN when the field does
    not start with a numeral. *)
Theorem fetchTopTokens_numeric_fields (fetch : Network) (limit : option Z)
    (tickers : list BinanceTicker.t) (ts : list Token.t) (t : Token.t) :
  succeeds fetch ticker24hr_url (Tickers tickers) ->
  fetchTopTokens fetch limit = Normal ts -> t ∈ ts ->
  let ticker := make_tickerMap tickers !! Token.id t in
  Token.current_price t = numeric_field ticker BinanceTicker.lastPrice /\
  Token.market_cap t = numeric_field ticker BinanceTicker.quoteVolume /\
  Token.volume_24h t = numeric_field ticker BinanceTicker.volume /\
  Token.price_change_percentage_24h t =
    numeric_field ticker BinanceTicker.priceChangePercent.
Proof.
  intros Ht Hts Hin.
  destruct (fetchTopTokens_cases fetch limit) as [(symbols & tickers' & H1 & H2 & H) | H];
    rewrite H in Hts; injection Hts as <-.
  - assert (tickers' = tickers) as -> by (pose proof (succeeds_inj _ _ _ _ H2 Ht); congruence).
    apply list_elem_of_lookup in Hin as [i Hi].
    apply ranked_tokens_lookup in Hi as (r & pair & _ & _ & _ & _ & ->).
    cbn [to_token Token.id Token.current_price Token.market_cap Token.volume_24h
         Token.price_change_percentage_24h].
    by rewrite !field_or_0_numeric.
  - by apply elem_of_nil in Hin.
Qed.

(** The token of DOGEUSDT, which has no ticker, has 0 in its four fields. *)
Lemma fetchTopTokens_numeric_fields_witness :
  doge_token ∈ sample_tokens /\
  Token.current_price doge_token = zero /\
  Token.market_cap doge_token = zero /\
  Token.volume_24h doge_token = zero /\
  Token.price_change_percentage_24h doge_token = zero.
Proof.
  assert (Hin : doge_token ∈ sample_tokens)
    by (apply list_elem_of_In; vm_compute; tauto).
  split; [exact Hin |].
  exact (fetchTopTokens_numeric_fields sample_exchange None sample_tickers
           sample_tokens doge_token eq_refl sample_exchange_tokens Hin).
Defined.

(** Claim C1 as stated fails: the last price ["abc"] fails to parse, and the
    token carries NaN for it, not 0. *)
Lemma fetchTopTokens_unparsed_field_is_NaN :
  fetchTopTokens unparsed_price_exchange None = Normal unparsed_price_tokens /\
  Token.current_price <$> unparsed_price_tokens = [nan] /\
  ~ default_claim unparsed_price_exchange None.
Proof.
  assert (Hts : fetchTopTokens unparsed_price_exchange None =
                Normal unparsed_price_tokens) by (vm_compute; reflexivity).
  split_and!; [exact Hts | reflexivity |].
  intros H.
  destruct (H unparsed_price_tickers unparsed_price_tokens
              (hd doge_token unparsed_price_tokens)
              (BinanceTicker.mk "BTCUSDT" "abc" "100" "0.5" "120.5"))
    as [H1 _].
  - reflexivity.
  - exact Hts.
  - apply list_elem_of_here.
  - vm_compute. reflexivity.
  - specialize (H1 eq_refl). discriminate H1.
Qed.

(** ** Failed requests *)

(** Claim C2.  When the catalog request or the ticker request fails, by a
    transport failure or by a status that is not a success, the call
    completes normally and returns the empty array. *)
Theorem fetchTopTokens_failure_gives_empty (fetch : Network) (limit : option Z) :
  request_fails fetch exchangeInfo_url \/ request_fails fetch ticker24hr_url ->
  fetchTopTokens fetch limit = Normal [].
Proof.
  unfold fetchTopTokens, fetchTopTokens_try, request_fails.
  intros [[[e ->] | ([o b] & -> & Hok)] | H]; try done.
  - cbn in Hok. by subst o.
  - destruct (fetch exchangeInfo_url) as [[[] [[symbols | |] |]] |]; try done.
    destruct H as [[e ->] | ([o b] & -> & Hok)]; [done |].
    cbn in Hok. by subst o.
Qed.

Lemma fetchTopTokens_failure_gives_empty_witness :
  fetchTopTokens (exchange_status_500 sample_tickers) (Some 10) = Normal [].
Proof.
  apply fetchTopTokens_failure_gives_empty.
  left. right. eexists. split; reflexivity.
Defined.

(** Whatever the two requests do, the call does not complete with an
    exception. *)
Lemma fetchTopTokens_never_throws (fetch : Network) (limit : option Z) :
  exists ts, fetchTopTokens fetch limit = Normal ts.
Proof.
  destruct (fetchTopTokens_cases fetch limit) as [(symbols & tickers & _ & _ & H) | H];
    eauto.
Qed.

(** ** The order of the result *)

(** Claim C3, as amended.  In the result the tokens of major assets stand
    before all the others; and when no instrument that passes the filter has
    a volume that parses to NaN, the 24h volume never increases along the
    tokens of one priority. *)
Theorem fetchTopTokens_ranking_order (fetch : Network) (limit : option Z)
    (ts : list Token.t) :
  fetchTopTokens fetch limit = Normal ts ->
  majors_first ts /\ (volumes_parse fetch -> volume_non_increasing ts).
Proof.
  intros Hts.
  destruct (fetchTopTokens_cases fetch limit) as [(symbols & tickers & H1 & H2 & H) | H];
    rewrite H in Hts; injection Hts as <-.
  - split; [apply ranked_tokens_majors_first |].
    intros Hv. apply ranked_tokens_volume_non_increasing.
    intros pair. by apply Hv.
  - split.
    + intros i j a b Hi. by rewrite lookup_nil in Hi.
    + intros _ i j a b _ Hi. by rewrite lookup_nil in Hi.
Qed.

Lemma sample_exchange_volumes_parse : volumes_parse sample_exchange.
Proof.
  intros symbols tickers pair H1 H2 Hin Hp.
  assert (E1 : ExchangeInfo sample_symbols = ExchangeInfo symbols)
    by exact (succeeds_inj sample_exchange exchangeInfo_url _ _ eq_refl H1).
  assert (E2 : Tickers sample_tickers = Tickers tickers)
    by exact (succeeds_inj sample_exchange ticker24hr_url _ _ eq_refl H2).
  injection E1 as <-. injection E2 as <-.
  unfold sample_symbols in Hin.
  repeat (apply elem_of_cons in Hin as [-> | Hin]; [vm_compute; reflexivity |]).
  by apply elem_of_nil in Hin.
Defined.

(** The sample result is BTC, LTC, DOGE, then ABC, XYZ. *)
Lemma fetchTopTokens_ranking_order_witness :
  Token.id <$> sample_tokens =
    ["BTCUSDT"; "LTCUSDT"; "DOGEUSDT"; "ABCUSDT"; "XYZUSDT"]%string /\
  majors_first sample_tokens /\ volume_non_increasing sample_tokens.
Proof.
  destruct (fetchTopTokens_ranking_order sample_exchange None sample_tokens
              sample_exchange_tokens) as [H1 H2].
  split_and!; [reflexivity | exact H1 | exact (H2 sample_exchange_volumes_parse)].
Defined.

Lemma nan_volume_exchange_tokens :
  fetchTopTokens nan_volume_exchange None = Normal nan_volume_tokens.
Proof. vm_compute. reflexivity. Qed.

(** Claim C3 as stated fails: the volumes ["1"], ["abc"], ["2"] of three
    instruments of one priority come out in that order, the volume 2 behind
    the volume 1. *)
Lemma fetchTopTokens_NaN_volume_breaks_order :
  fetchTopTokens nan_volume_exchange None = Normal nan_volume_tokens /\
  Token.volume_24h <$> nan_volume_tokens =
    [parseFloat_string "1"; nan; parseFloat_string "2"] /\
  num_lt (parseFloat_string "1") (parseFloat_string "2") = true /\
  ~ ranking_claim nan_volume_exchange None.
Proof.
  split_and!; [exact nan_volume_exchange_tokens | by vm_compute | by vm_compute |].
  intros H.
  destruct (H nan_volume_tokens nan_volume_exchange_tokens) as [_ Hv].
  specialize (Hv 0%nat 2%nat _ _ ltac:(lia) eq_refl eq_refl eq_refl).
  vm_compute in Hv. discriminate Hv.
Qed.

(** That failure does not hang on the order the sort gives to elements it
    cannot compare: in whatever order these three tokens come, the one whose
    volume is NaN stands next to tokens it is not comparable to. *)
Lemma nan_volume_no_order (ts : list Token.t) :
  ts ≡ₚ nan_volume_tokens -> ~ volume_non_increasing ts.
Proof.
  intros Hp Hv.
  assert (Ha : exists a, a ∈ ts /\ Token.id a = "AAAUSDT"%string /\
             Token.baseAsset a = "AAA"%string /\
             Token.volume_24h a = parseFloat_string "1").
  { eexists. split; [rewrite Hp; apply list_elem_of_here |]. by vm_compute. }
  assert (Hb : exists b, b ∈ ts /\ Token.id b = "BBBUSDT"%string /\
             Token.baseAsset b = "BBB"%string /\
             Token.volume_24h b = nan).
  { eexists. split; [rewrite Hp; apply list_elem_of_further, list_elem_of_here |].
    by vm_compute. }
  destruct Ha as (a & Ha & Ia & Ba & Va), Hb as (b & Hb & Ib & Bb & Vb).
  apply list_elem_of_lookup in Ha as [i Hi], Hb as [j Hj].
  assert (Hab : is_major (Token.baseAsset a) = is_major (Token.baseAsset b))
    by (rewrite Ba, Bb; by vm_compute).
  destruct (Nat.lt_trichotomy i j) as [Hlt | [-> | Hgt]].
  - specialize (Hv i j a b Hlt Hi Hj Hab). rewrite Va, Vb in Hv. by vm_compute in Hv.
  - rewrite Hi in Hj. injection Hj as ->. rewrite Ia in Ib. discriminate Ib.
  - specialize (Hv j i b a Hgt Hj Hi (eq_sym Hab)). rewrite Va, Vb in Hv.
    by vm_compute in Hv.
Qed.

(** ** The length of the result *)

Lemma sortedPairs_length symbols tickerMap limit :
  0 <= limit -> Z.of_nat (length (sortedPairs symbols tickerMap limit)) <= limit.
Proof. intros H. unfold sortedPairs. by apply slice_0_length. Qed.

(** Claim C5, as amended.  For a limit that is not negative, 300 when it is
    omitted, the result has at most that many elements. *)
Theorem fetchTopTokens_length_le_limit (fetch : Network) (limit : option Z)
    (ts : list Token.t) :
  0 <= default 300 limit ->
  fetchTopTokens fetch limit = Normal ts ->
  Z.of_nat (length ts) <= default 300 limit.
Proof.
  intros Hl Hts.
  destruct (fetchTopTokens_cases fetch limit) as [(symbols & tickers & _ & _ & H) | H];
    rewrite H in Hts; injection Hts as <-.
  - unfold ranked_tokens. rewrite length_fmap. by apply sortedPairs_length.
  - cbn. lia.
Qed.

Lemma fetchTopTokens_length_le_limit_witness :
  fetchTopTokens sample_exchange (Some 2) =
    Normal (ranked_tokens sample_symbols sample_tickers 2) /\
  Z.of_nat (length (ranked_tokens sample_symbols sample_tickers 2)) <= 2.
Proof.
  assert (H : fetchTopTokens sample_exchange (Some 2) =
              Normal (ranked_tokens sample_symbols sample_tickers 2))
    by (vm_compute; reflexivity).
  split; [exact H |].
  apply (fetchTopTokens_length_le_limit sample_exchange (Some 2) _ ltac:(cbn; lia) H).
Defined.

(** Claim C5 as stated fails: with the limit -1 the slice drops the last of
    the five elements only, and four is more than -1. *)
Lemma fetchTopTokens_negative_limit :
  fetchTopTokens sample_exchange (Some (-1)) =
    Normal (ranked_tokens sample_symbols sample_tickers (-1)) /\
  length (ranked_tokens sample_symbols sample_tickers (-1)) = 4%nat /\
  ~ length_claim sample_exchange (Some (-1)).
Proof.
  assert (H : fetchTopTokens sample_exchange (Some (-1)) =
              Normal (ranked_tokens sample_symbols sample_tickers (-1)))
    by (vm_compute; reflexivity).
  split_and!; [exact H | by vm_compute |].
  intros Hc. specialize (Hc _ H). vm_compute in Hc. by apply Hc.
Qed.

(** ** The instruments of the result *)

(** Claim C6.  Every token of the result is made from an instrument of the
    catalog whose quote asset is USDT, whose status is TRADING and whose
    symbol contains neither DOWN nor UP. *)
Theorem fetchTopTokens_only_filtered (fetch : Network) (limit : option Z)
    (ts : list Token.t) (t : Token.t) :
  fetchTopTokens fetch limit = Normal ts -> t ∈ ts ->
  exists symbols pair,
    succeeds fetch exchangeInfo_url (ExchangeInfo symbols) /\
    pair ∈ symbols /\
    Token.id t = BinancePair.symbol pair /\
    Token.baseAsset t = BinancePair.baseAsset pair /\
    Token.quoteAsset t = BinancePair.quoteAsset pair /\
    BinancePair.quoteAsset pair = "USDT" /\
    BinancePair.status pair = "TRADING" /\
    includes (BinancePair.symbol pair) "DOWN" = false /\
    includes (BinancePair.symbol pair) "UP" = false.
Proof.
  intros Hts Hin.
  destruct (fetchTopTokens_cases fetch limit) as [(symbols & tickers & H1 & _ & H) | H];
    rewrite H in Hts; injection Hts as <-.
  - apply list_elem_of_lookup in Hin as [i Hi].
    apply ranked_tokens_lookup in Hi as (r & pair & _ & Hp & Hf & -> & ->).
    exists symbols, pair. split_and!; try done.
    all: unfold is_usdt_pair in Hf.
    all: apply andb_prop in Hf as [Hf H4]; apply andb_prop in Hf as [Hf H3].
    all: apply andb_prop in Hf as [H1' H2'].
    + by apply String.eqb_eq.
    + by apply String.eqb_eq.
    + by apply negb_true_iff.
    + by apply negb_true_iff.
  - by apply elem_of_nil in Hin.
Qed.

Lemma fetchTopTokens_only_filtered_witness :
  exists symbols pair,
    succeeds sample_exchange exchangeInfo_url (ExchangeInfo symbols) /\
    pair ∈ symbols /\
    Token.id doge_token = BinancePair.symbol pair /\
    Token.baseAsset doge_token = BinancePair.baseAsset pair /\
    Token.quoteAsset doge_token = BinancePair.quoteAsset pair /\
    BinancePair.quoteAsset pair = "USDT" /\
    BinancePair.status pair = "TRADING" /\
    includes (BinancePair.symbol pair) "DOWN" = false /\
    includes (BinancePair.symbol pair) "UP" = false.
Proof.
  apply (fetchTopTokens_only_filtered sample_exchange None sample_tokens doge_token
           sample_exchange_tokens).
  apply list_elem_of_In. vm_compute. tauto.
Defined.

(** The instruments of the sample catalog that are leveraged, quoted in
    another asset or not trading are not in the sample result. *)
Lemma sample_tokens_ids :
  Token.id <$> sample_tokens =
    ["BTCUSDT"; "LTCUSDT"; "DOGEUSDT"; "ABCUSDT"; "XYZUSDT"]%string.
Proof. reflexivity. Qed.

(** ** The identifiers of the result *)

Lemma sortedPairs_sublist_Permutation symbols tickerMap limit :
  exists l,
    sortedPairs symbols tickerMap limit `sublist_of` l /\
    l ≡ₚ rank_pair tickerMap <$> filter (fun symbol => is_usdt_pair symbol) symbols.
Proof.
  destruct (sortedPairs_take symbols tickerMap limit) as [n ->].
  eexists. split; [apply sublist_take | apply sort_Permutation].
Qed.

(** Claim C7.  When the catalog lists every symbol once, the identifiers of
    the tokens of one result are pairwise distinct. *)
Theorem fetchTopTokens_ids_unique (fetch : Network) (limit : option Z)
    (ts : list Token.t) :
  (forall symbols, succeeds fetch exchangeInfo_url (ExchangeInfo symbols) ->
     NoDup (BinancePair.symbol <$> symbols)) ->
  fetchTopTokens fetch limit = Normal ts ->
  NoDup (Token.id <$> ts).
Proof.
  intros Hnd Hts.
  destruct (fetchTopTokens_cases fetch limit) as [(symbols & tickers & H1 & _ & H) | H];
    rewrite H in Hts; injection Hts as <-.
  - specialize (Hnd symbols H1). unfold ranked_tokens.
    set (tm := make_tickerMap tickers).
    destruct (sortedPairs_sublist_Permutation symbols tm (default 300 limit))
      as (l & Hsub & Hperm).
    rewrite <- list_fmap_compose.
    apply (sublist_NoDup _ (Token.id ∘ to_token tm <$> l)); [| by apply fmap_sublist].
    rewrite Hperm, <- list_fmap_compose.
    apply (sublist_NoDup _ (BinancePair.symbol <$> symbols)); [exact Hnd |].
    apply fmap_sublist, sublist_filter.
  - constructor.
Qed.

Lemma sample_symbols_NoDup :
  forall symbols, succeeds sample_exchange exchangeInfo_url (ExchangeInfo symbols) ->
    NoDup (BinancePair.symbol <$> symbols).
Proof.
  intros symbols H.
  assert (E : ExchangeInfo sample_symbols = ExchangeInfo symbols)
    by exact (succeeds_inj sample_exchange exchangeInfo_url _ _ eq_refl H).
  injection E as <-.
  apply (bool_decide_unpack _). vm_compute. exact I.
Defined.

Lemma fetchTopTokens_ids_unique_witness : NoDup (Token.id <$> sample_tokens).
Proof.
  exact (fetchTopTokens_ids_unique sample_exchange None sample_tokens
           sample_symbols_NoDup sample_exchange_tokens).
Defined.

(** ** The stream handle *)

Lemma close_socket_not_live (s : WebSocket) : live (close_socket s) = false.
Proof. unfold close_socket, live. by destruct s as [u [] h]. Qed.

Lemma ws_close_lookup (st : State) (h i : nat) (s : WebSocket) :
  sockets (ws_close h st) !! i = Some s ->
  live s = true -> i <> h /\ sockets st !! i = Some s.
Proof.
  cbn [ws_close sockets]. intros Hs Hl.
  destruct (decide (i = h)) as [-> | Hne].
  - rewrite list_lookup_alter_eq in Hs.
    destruct (sockets st !! h) as [s0 |]; [| done].
    injection Hs as <-. by rewrite close_socket_not_live in Hl.
  - by rewrite list_lookup_alter_ne in Hs.
Qed.

Lemma close_previous_no_live (st : State) :
  handle_is_only_live st -> no_live (close_previous st).
Proof.
  intros Hinv i s Hs. apply not_true_iff_false. intros Hl.
  unfold close_previous in Hs. destruct (ws st) as [old |] eqn:Hws.
  - destruct (ws_close_lookup st old i s Hs Hl) as [Hne Hs'].
    specialize (Hinv i s Hs' Hl). congruence.
  - specialize (Hinv i s Hs Hl). congruence.
Qed.

Lemma initializeWebSocket_unfold env symbols st :
  initializeWebSocket env symbols st =
    let st1 := close_previous st in
    if accepts_url env (stream_url symbols) then
      let handle := length (sockets st1) in
      (Normal handle,
       mkState (sockets st1 ++ [mkWebSocket (stream_url symbols) CONNECTING true])
               (Some handle)
               (calls st1 ++ [CallNew handle (stream_url symbols)]))
    else (Throw SyntaxError, st1).
Proof.
  unfold initializeWebSocket, new_WebSocket. fold (close_previous st).
  destruct (accepts_url env (stream_url symbols)); [| done].
  cbn [sockets ws calls]. do 2 f_equal.
  by rewrite alter_app_r_alt, Nat.sub_diag.
Qed.

Lemma initializeWebSocket_invariant env symbols st :
  handle_is_only_live st ->
  handle_is_only_live (snd (initializeWebSocket env symbols st)).
Proof.
  intros Hinv. pose proof (close_previous_no_live st Hinv) as Hno.
  rewrite initializeWebSocket_unfold. cbv zeta.
  destruct (accepts_url env (stream_url symbols)); cbn [snd].
  - intros i s Hs Hl. cbn [sockets ws] in *.
    apply lookup_app_Some in Hs as [Hs | [Hlen Hs]].
    + rewrite (Hno i s Hs) in Hl. done.
    + f_equal. apply list_lookup_singleton_Some in Hs as [Hs _]. lia.
  - intros i s Hs Hl. rewrite (Hno i s Hs) in Hl. done.
Qed.

Lemma closeWebSocket_no_live st :
  handle_is_only_live st -> no_live (closeWebSocket st).
Proof.
  intros Hinv. pose proof (close_previous_no_live st Hinv) as Hno.
  unfold closeWebSocket, close_previous in *. by destruct (ws st).
Qed.

Lemma step_invariant env st st' :
  step env st st' -> handle_is_only_live st -> handle_is_only_live st'.
Proof.
  intros Hstep Hinv. destruct Hstep as [symbols st | st | st i s rs Hs Hmove].
  - by apply initializeWebSocket_invariant.
  - intros i s Hs Hl. by rewrite (closeWebSocket_no_live st Hinv i s Hs) in Hl.
  - intros j t Ht Hl. cbn [sockets ws] in *.
    destruct (decide (j = i)) as [-> | Hne].
    + rewrite list_lookup_insert_eq in Ht by (by eapply lookup_lt_Some).
      injection Ht as <-. apply (Hinv i s Hs).
      inversion Hmove as [Hc Ho | rs' Hn Hc Ho | rs' Hn Hc Ho]; subst rs.
      * unfold live. by rewrite <- Hc.
      * discriminate Hl.
      * discriminate Hl.
    + rewrite list_lookup_insert_ne in Ht by done. by apply (Hinv j t).
Qed.

Lemma close_previous_length st :
  length (sockets (close_previous st)) = length (sockets st).
Proof.
  unfold close_previous. destruct (ws st); [| done].
  cbn [ws_close sockets]. by rewrite length_alter.
Qed.

Lemma close_previous_ws st : ws (close_previous st) = ws st.
Proof. unfold close_previous. by destruct (ws st) eqn:E. Qed.

Lemma step_handle_valid env st st' :
  step env st st' -> handle_valid st -> handle_valid st'.
Proof.
  intros Hstep Hval. destruct Hstep as [symbols st | st | st i s rs Hs Hmove].
  - rewrite initializeWebSocket_unfold. cbv zeta.
    destruct (accepts_url env (stream_url symbols)); cbn [snd]; intros h Hh.
    + cbn [ws sockets] in *. injection Hh as <-. rewrite length_app. cbn. lia.
    + rewrite close_previous_ws in Hh. rewrite close_previous_length. by apply Hval.
  - intros h Hh. unfold closeWebSocket in Hh.
    destruct (ws st) eqn:E; cbn [ws] in Hh; congruence.
  - intros h Hh. cbn [ws sockets] in *. rewrite length_insert. by apply Hval.
Qed.

Lemma reachable_invariant env st :
  reachable env st -> handle_valid st /\ handle_is_only_live st.
Proof.
  induction 1 as [| st st' _ [IH1 IH2] Hstep].
  - split; [done |].
    intros i s Hs. cbn [initial_state sockets] in Hs. by rewrite lookup_nil in Hs.
  - split; [by apply (step_handle_valid env st st') | by apply (step_invariant env st st')].
Qed.

Lemma handle_is_only_live_at_most_one st :
  handle_is_only_live st -> at_most_one_live st.
Proof.
  intros Hinv i j s t Hi Hj Hs Ht.
  pose proof (Hinv i s Hi Hs). pose proof (Hinv j t Hj Ht). congruence.
Qed.

(** Claim C4.  In every state that the module can reach at most one
    connection is live.  A call of [initializeWebSocket] from there first
    calls [close] on the handle it holds, if any, which leaves no connection
    live, and only then calls the constructor, with the URL whose subscription
    path is the symbols of the call in lower case with [@ticker] added,
    joined by [/].  Afterwards the former handle is not live, the new handle
    is the one stored and the only live connection, and still at most one
    connection is live. *)
Theorem initializeWebSocket_single_connection (env : Env) (st : State)
    (symbols : list string) :
  reachable env st ->
  let url :=
    "wss://stream.binance.com:9443/stream?streams=" +:+
    join "/" ((fun symbol => toLowerCase symbol +:+ "@ticker") <$> symbols) in
  let result := fst (initializeWebSocket env symbols st) in
  let st' := snd (initializeWebSocket env symbols st) in
  at_most_one_live st /\
  no_live (close_previous st) /\
  calls st' =
    calls st
    ++ match ws st with Some old => [CallClose old] | None => [] end
    ++ match result with Normal handle => [CallNew handle url] | Throw _ => [] end /\
  (forall old s, ws st = Some old -> sockets st' !! old = Some s -> live s = false) /\
  (forall handle, result = Normal handle ->
     ws st' = Some handle /\
     sockets st' !! handle = Some (mkWebSocket url CONNECTING true) /\
     forall i s, sockets st' !! i = Some s -> live s = true -> i = handle) /\
  at_most_one_live st'.
Proof.
  intros Hreach. cbv zeta.
  destruct (reachable_invariant env st Hreach) as [Hval Hinv].
  pose proof (close_previous_no_live st Hinv) as Hno.
  pose proof (initializeWebSocket_invariant env symbols st Hinv) as Hinv'.
  split; [by apply handle_is_only_live_at_most_one |].
  split; [exact Hno |].
  split_and!; [| | | by apply handle_is_only_live_at_most_one].
  - rewrite initializeWebSocket_unfold. cbv zeta. fold (stream_url symbols).
    destruct (accepts_url env (stream_url symbols)); cbn [fst snd calls];
      unfold close_previous; destruct (ws st); cbn [ws_close calls sockets];
      by rewrite ?app_nil_r, <- ?app_assoc.
  - intros old s Hws Hs. apply not_true_iff_false. intros Hl.
    pose proof (Hinv' old s Hs Hl) as Hws'.
    revert Hs Hws'. rewrite initializeWebSocket_unfold. cbv zeta.
    destruct (accepts_url env (stream_url symbols)); cbn [snd sockets ws].
    + intros Hs [= Hold].
      apply lookup_app_Some in Hs as [Hs | [Hlen Hs]].
      * by rewrite (Hno old s Hs) in Hl.
      * rewrite close_previous_length in Hlen. specialize (Hval old Hws). lia.
    + intros Hs _. by rewrite (Hno old s Hs) in Hl.
  - intros handle. rewrite initializeWebSocket_unfold. cbv zeta.
    fold (stream_url symbols).
    destruct (accepts_url env (stream_url symbols)); cbn [fst snd sockets ws];
      [| done].
    intros [= <-]. split_and!; [done | |].
    + rewrite lookup_app_r by done. by rewrite Nat.sub_diag.
    + intros i s Hs Hl.
      apply lookup_app_Some in Hs as [Hs | [Hlen Hs]].
      * by rewrite (Hno i s Hs) in Hl.
      * apply list_lookup_singleton_Some in Hs as [Hs _]. lia.
Qed.

Lemma two_streams_reachable : reachable browser two_streams.
Proof.
  apply (reachable_step browser initial_state); [constructor | apply step_initialize].
Defined.

(** [initializeWebSocket(["BTCUSDT", "ETHUSDT"])] and then
    [initializeWebSocket(["SOLUSDT"])]: the first connection is closed before
    the second one is made, and the handle is the second one, on
    [solusdt@ticker] alone. *)
Lemma initializeWebSocket_single_connection_witness :
  calls (snd (initializeWebSocket browser ["SOLUSDT"]%string two_streams)) =
    [CallNew 0 "wss://stream.binance.com:9443/stream?streams=btcusdt@ticker/ethusdt@ticker";
     CallClose 0;
     CallNew 1 "wss://stream.binance.com:9443/stream?streams=solusdt@ticker"] /\
  ws (snd (initializeWebSocket browser ["SOLUSDT"]%string two_streams)) = Some 1%nat /\
  sockets (snd (initializeWebSocket browser ["SOLUSDT"]%string two_streams)) =
    [mkWebSocket
       "wss://stream.binance.com:9443/stream?streams=btcusdt@ticker/ethusdt@ticker"
       CLOSING true;
     mkWebSocket "wss://stream.binance.com:9443/stream?streams=solusdt@ticker"
       CONNECTING true] /\
  at_most_one_live (snd (initializeWebSocket browser ["SOLUSDT"]%string two_streams)).
Proof.
  destruct (initializeWebSocket_single_connection browser two_streams
              ["SOLUSDT"]%string two_streams_reachable) as (_ & _ & H2 & _ & H4 & H5).
  destruct (H4 1%nat eq_refl) as (H6 & _ & _).
  split_and!; [exact H2 | exact H6 | reflexivity | exact H5].
Defined.

(** Claim C9.  [closeWebSocket] leaves the module variable cleared.  When it
    held a handle, [close] is called on that connection, which is not live
    afterwards; when it held none, nothing is called and nothing changes.  A
    second call in a row changes nothing. *)
Theorem closeWebSocket_clears_handle (st : State) :
  ws (closeWebSocket st) = None /\
  (forall handle, ws st = Some handle ->
     sockets (closeWebSocket st) = alter close_socket handle (sockets st) /\
     calls (closeWebSocket st) = calls st ++ [CallClose handle] /\
     forall s, sockets (closeWebSocket st) !! handle = Some s -> live s = false) /\
  (ws st = None -> closeWebSocket st = st) /\
  closeWebSocket (closeWebSocket st) = closeWebSocket st.
Proof.
  unfold closeWebSocket. destruct (ws st) as [h |] eqn:Hws.
  - cbn [ws ws_close sockets calls]. split_and!; try done.
    intros handle [= <-]. split_and!; try done.
    intros s. rewrite list_lookup_alter_eq.
    destruct (sockets st !! h); [| done].
    intros [= <-]. apply close_socket_not_live.
  - rewrite Hws. split_and!; done.
Qed.

Lemma closeWebSocket_clears_handle_witness :
  ws (closeWebSocket two_streams) = None /\
  calls (closeWebSocket two_streams) = calls two_streams ++ [CallClose 0%nat] /\
  closeWebSocket (closeWebSocket two_streams) = closeWebSocket two_streams /\
  closeWebSocket initial_state = initial_state.
Proof.
  destruct (closeWebSocket_clears_handle two_streams) as (H1 & H2 & _ & H4).
  destruct (H2 0%nat eq_refl) as (_ & H3 & _).
  destruct (closeWebSocket_clears_handle initial_state) as (_ & _ & H5 & _).
  split_and!; [exact H1 | exact H3 | exact H4 | exact (H5 eq_refl)].
Defined.

(** ** The message handler *)

Lemma get_truthy (v : value) (k : string) :
  ToBoolean v = true -> exists w, get v k = Normal w.
Proof.
  destruct v as [[] |]; try done; cbn [get]; eauto.
Qed.

(** *** ToString and parseFloat on parsed JSON *)

Lemma completion_mapM_cons {A B} (f : A -> completion B) (x : A) (l : list A) :
  mapM f (x :: l) =
    match f x with
    | Normal y =>
        match mapM f l with
        | Normal k => Normal (y :: k)
        | Throw e => Throw e
        end
    | Throw e => Throw e
    end.
Proof. reflexivity. Qed.

Lemma json_ToString_printable (v : json) :
  if printable v then exists s, json_ToString v = Normal s
  else json_ToString v = Throw TypeError.
Proof.
  revert v. fix IH 1. intros [| [] | n | s | l | ms]; cbn [printable json_ToString];
    try (by eexists).
  - unfold mbind, completion_bind, mret, completion_ret.
    induction l as [| x l IHl]; [by eexists |].
    cbn [forallb]. rewrite completion_mapM_cons.
    specialize (IH x).
    destruct (printable x).
    + destruct IH as [sx Hx].
      assert (exists t, match x with JNull => Normal "" | _ => json_ToString x end
                        = Normal t) as [t ->] by (destruct x; eauto).
      cbn [andb]. destruct (forallb printable l).
      * destruct IHl as [sl Hl].
        destruct (mapM _ l); [by eexists | done].
      * by destruct (mapM _ l).
    + assert (match x with JNull => Normal "" | _ => json_ToString x end
              = Throw TypeError) as -> by (by destruct x).
      done.
  - destruct (member "toString" ms); [done | by eexists].
Qed.

(** [parseFloat] completes exactly on the values that ToString converts, and
    throws a TypeError on the others. *)
Lemma parseFloat_printable (v : value) :
  value_printable v = true -> exists n, parseFloat v = Normal n.
Proof.
  unfold parseFloat, mbind, completion_bind, mret, completion_ret.
  destruct v as [j |]; cbn [value_printable ToString]; [| by eexists].
  intros H. pose proof (json_ToString_printable j) as Hj. rewrite H in Hj.
  destruct Hj as [s ->]. by eexists.
Qed.

Lemma parseFloat_unprintable (v : value) :
  value_printable v = false -> parseFloat v = Throw TypeError.
Proof.
  unfold parseFloat, mbind, completion_bind, mret, completion_ret.
  destruct v as [j |]; cbn [value_printable ToString]; [| done].
  intros H. pose proof (json_ToString_printable j) as Hj. rewrite H in Hj.
  by rewrite Hj.
Qed.

Lemma parseFloat_cases (v : value) :
  (value_printable v = true /\ exists n, parseFloat v = Normal n) \/
  (value_printable v = false /\ parseFloat v = Throw TypeError).
Proof.
  destruct (value_printable v) eqn:E.
  - left. split; [done | by apply parseFloat_printable].
  - right. split; [done | by apply parseFloat_unprintable].
Qed.

Lemma parseFloat_JString (s : string) :
  parseFloat (Some (JString s)) = Normal (parseFloat_string s).
Proof. reflexivity. Qed.

(** The number [number_65000_12] is the one the literal 65000.12 denotes. *)
Lemma number_65000_12_literal : Prim2SF 65000.12%float = number_65000_12.
Proof. reflexivity. Qed.

(** Claim C8, as amended.  Where [window] is defined, a message whose body
    has a truthy [data] gives exactly one [priceUpdate] event, which carries
    the [s] of the data and [parseFloat] of its [c], provided ToString
    converts that [c]; when it does not ([c] is an object with a member
    [toString], or an array that holds one), [parseFloat] throws a TypeError,
    the handler throws it and dispatches nothing.  A message whose [data] is
    absent or falsy gives no event.  The message
    [{data: {s: "BTCUSDT", c: "65000.12"}}] gives the one event with the
    symbol ["BTCUSDT"] and the price 65000.12. *)
Theorem onmessage_priceUpdate (env : Env) (body : json) (payload : value) :
  get (Some body) "data" = Normal payload ->
  (window_defined env = true -> ToBoolean payload = true ->
   exists s c,
     get payload "s" = Normal s /\
     get payload "c" = Normal c /\
     (value_printable c = true ->
      exists price,
        parseFloat c = Normal price /\
        onmessage env (Normal body) =
          Normal [CustomEvent "priceUpdate" (mkPriceUpdate s price)]) /\
     (value_printable c = false ->
      onmessage env (Normal body) = Throw TypeError)) /\
  (ToBoolean payload = false -> onmessage env (Normal body) = Normal []) /\
  onmessage browser (Normal btc_message) =
    Normal [CustomEvent "priceUpdate"
              (mkPriceUpdate (Some (JString "BTCUSDT")) number_65000_12)].
Proof.
  intros Hdata. split_and!.
  - intros Hw Ht.
    destruct (get_truthy payload "s" Ht) as [s Hs].
    destruct (get_truthy payload "c" Ht) as [c Hc].
    exists s, c. split_and!; [done | done | |].
    + intros Hp. destruct (parseFloat_printable c Hp) as [price Hprice].
      exists price. split; [done |].
      unfold onmessage, mbind, completion_bind, mret, completion_ret.
      by rewrite Hdata, Ht, Hw, Hs, Hc, Hprice.
    + intros Hp. pose proof (parseFloat_unprintable c Hp) as Hprice.
      unfold onmessage, mbind, completion_bind, mret, completion_ret.
      by rewrite Hdata, Ht, Hw, Hs, Hc, Hprice.
  - intros Hf. unfold onmessage, mbind, completion_bind, mret, completion_ret.
    by rewrite Hdata, Hf.
  - vm_compute. reflexivity.
Qed.

Lemma onmessage_priceUpdate_witness :
  onmessage browser (Normal btc_message) =
    Normal [CustomEvent "priceUpdate"
              (mkPriceUpdate (Some (JString "BTCUSDT")) number_65000_12)] /\
  onmessage browser (Normal (JObject [("stream", JString "btcusdt@ticker")]%string)) =
    Normal [] /\
  onmessage browser (Normal unprintable_message) = Throw TypeError.
Proof.
  split_and!.
  - exact (proj2 (proj2 (onmessage_priceUpdate browser btc_message
                           (Some (JObject [("s", JString "BTCUSDT");
                                           ("c", JString "65000.12")]%string))
                           eq_refl))).
  - exact (proj1 (proj2 (onmessage_priceUpdate browser
                           (JObject [("stream", JString "btcusdt@ticker")]%string)
                           None eq_refl)) eq_refl).
  - destruct (proj1 (onmessage_priceUpdate browser unprintable_message
                       (Some (JObject [("s", JString "BTCUSDT");
                                       ("c", JObject [("toString", JNumber one)])]%string))
                       eq_refl) eq_refl eq_refl)
      as (s & c & _ & Hc & _ & H).
    injection Hc as <-. exact (H eq_refl).
Defined.

(** Claim C8 as stated fails: where [window] is not defined the handler
    dispatches nothing, also for a message that has a [data]. *)
Lemma onmessage_without_window :
  onmessage no_window (Normal btc_message) = Normal [] /\
  ~ notification_claim no_window btc_message.
Proof.
  assert (E : onmessage no_window (Normal btc_message) = Normal [])
    by (vm_compute; reflexivity).
  split; [exact E |].
  intros H. destruct (H _ eq_refl) as (s & c & price & _ & _ & _ & Hev).
  rewrite E in Hev. discriminate Hev.
Qed.

(** ** formatPercentage *)

Lemma toFixed_not_plus (x : number) :
  num_gt x zero = false -> startsWith "+" (toFixed x 2) = false.
Proof.
  destruct x as [s | [] | | [] m e]; try done.
  intros _. unfold toFixed. by destruct (ratio_of m e).
Qed.

(** Claim C10.  [formatPercentage] puts a [+] in front exactly for the
    numbers greater than 0.  Of 0 it makes ["0.00%"], with no sign: as for a
    negative number, the result is [toFixed(2)] of the number followed by
    [%]. *)
Theorem formatPercentage_sign :
  formatPercentage zero = "0.00%" /\
  (forall x, startsWith "+" (formatPercentage x) = num_gt x zero) /\
  (forall x, num_gt x zero = false -> formatPercentage x = toFixed x 2 +:+ "%").
Proof.
  split_and!; [by vm_compute | |].
  - intros x. unfold formatPercentage.
    destruct (num_gt x zero) eqn:H; [done |].
    pose proof (toFixed_not_plus x H) as Hx.
    destruct (toFixed x 2) as [| c r]; [done |].
    cbn [String.app] in *. exact Hx.
  - intros x H. unfold formatPercentage. by rewrite H.
Qed.

(** The formats that the specification lists. *)
Lemma formatPercentage_examples :
  formatPercentage (parseFloat_string "3.14159") = "+3.14%" /\
  formatPercentage (parseFloat_string "-1.2") = "-1.20%" /\
  formatPercentage (parseFloat_string "-0") = "0.00%".
Proof. by vm_compute. Qed.

(** * Further properties *)

Lemma get_not_null (data : json) (k : string) :
  data <> JNull -> exists v, get (Some data) k = Normal v.
Proof. destruct data; try done; cbn [get]; eauto. Qed.

Lemma replied_inj fetch url d1 d2 :
  replied fetch url d1 -> replied fetch url d2 -> d1 = d2.
Proof. unfold replied. intros -> H. by injection H. Qed.

(** Either the request is answered, or it is not, and then the reply has one
    of the shapes that make the readers give up. *)
Lemma answered_or_not (fetch : Endpoint) (url : string) :
  answered fetch url \/
  ((exists e, fetch url = Throw e) \/
   (exists j, fetch url = Normal (mkReply false j)) \/
   (exists e, fetch url = Normal (mkReply true (Throw e))) \/
   fetch url = Normal (mkReply true (Normal JNull))).
Proof.
  unfold answered, replied.
  destruct (fetch url) as [[[] [data | e]] | e]; eauto 6.
  destruct data; eauto 6; left; eexists; (split; [reflexivity | discriminate]).
Qed.

(** X1.  [fetchTokenPrice] never throws.  When the request is answered with a
    success status and a JSON body other than [null], it returns [parseFloat]
    of the [price] of the body, provided ToString converts that [price], and
    [null] when it does not (the [price] is an object with a member
    [toString], or an array that holds one): the TypeError of [parseFloat] is
    caught.  A body without a [price] gives NaN, not [null].  In every other
    case it returns [null]. *)
Theorem fetchTokenPrice_result (fetch : Endpoint) (symbol : string) :
  (forall data, replied fetch (price_url symbol) data -> data <> JNull ->
     exists price,
       get (Some data) "price" = Normal price /\
       (value_printable price = true ->
        exists n, parseFloat price = Normal n /\
                  fetchTokenPrice fetch symbol = Normal (Some n)) /\
       (value_printable price = false ->
        fetchTokenPrice fetch symbol = Normal None)) /\
  (forall members, replied fetch (price_url symbol) (JObject members) ->
     member "price" members = None ->
     fetchTokenPrice fetch symbol = Normal (Some nan)) /\
  (~ answered fetch (price_url symbol) ->
   fetchTokenPrice fetch symbol = Normal None).
Proof.
  unfold fetchTokenPrice, mbind, completion_bind, mret, completion_ret.
  split_and!.
  - intros data Hr Hne. rewrite Hr. cbn [reply_ok reply_json negb throw_if].
    destruct (get_not_null data "price" Hne) as [v Hv].
    exists v. rewrite Hv. split_and!; [done | |].
    + intros Hp. destruct (parseFloat_printable v Hp) as [n Hn].
      exists n. by rewrite Hn.
    + intros Hp. by rewrite (parseFloat_unprintable v Hp).
  - intros members Hr Hm. rewrite Hr. cbn [reply_ok reply_json negb throw_if get].
    by rewrite Hm.
  - intros Hna.
    destruct (answered_or_not fetch (price_url symbol))
      as [Ha | [[e ->] | [[j ->] | [[e ->] | ->]]]]; done.
Qed.

Lemma fetchTokenPrice_result_witness :
  fetchTokenPrice (always btc_price_body) "BTCUSDT" = Normal (Some number_65000_12) /\
  fetchTokenPrice (always (JObject [("price", JObject [("toString", JNumber one)])]%string))
                  "BTCUSDT" = Normal None /\
  fetchTokenPrice (always (JObject [("code", JString "-1121")]%string)) "BTCUSD" =
    Normal (Some nan) /\
  fetchTokenPrice offline "BTCUSDT" = Normal None.
Proof.
  destruct (fetchTokenPrice_result (always btc_price_body) "BTCUSDT") as (H1 & _ & _).
  destruct (fetchTokenPrice_result
              (always (JObject [("price", JObject [("toString", JNumber one)])]%string))
              "BTCUSDT") as (H1' & _ & _).
  destruct (fetchTokenPrice_result (always (JObject [("code", JString "-1121")]%string))
              "BTCUSD") as (_ & H2 & _).
  destruct (fetchTokenPrice_result offline "BTCUSDT") as (_ & _ & H3).
  split_and!.
  - destruct (H1 btc_price_body eq_refl ltac:(discriminate)) as (price & Hp & Hres & _).
    injection Hp as <-. destruct (Hres eq_refl) as (n & Hn & ->).
    injection Hn as <-. reflexivity.
  - destruct (H1' _ eq_refl ltac:(discriminate)) as (price & Hp & _ & Hres).
    injection Hp as <-. exact (Hres eq_refl).
  - exact (H2 _ eq_refl eq_refl).
  - apply H3. intros (data & Hr & _). discriminate Hr.
Defined.

(** X2.  [fetchCurrentPrice] is [fetchTokenPrice] with 0 in the place of
    [null]: the two agree on every answer that gives a number, and a failed
    request gives 0, as a price of 0 does. *)
Theorem fetchCurrentPrice_fetchTokenPrice (fetch : Endpoint) (symbol : string) :
  exists r,
    fetchTokenPrice fetch symbol = Normal r /\
    fetchCurrentPrice fetch symbol = Normal (default zero r).
Proof.
  unfold fetchTokenPrice, fetchCurrentPrice, mbind, completion_bind, mret,
    completion_ret.
  destruct (fetch (price_url symbol)) as [[[] [data | e]] | e];
    cbn [reply_ok reply_json negb throw_if try_catch]; eauto.
  destruct (get (Some data) "price") as [price |]; cbn [try_catch]; eauto.
  destruct (parseFloat price); cbn [try_catch]; eauto.
Qed.

(** *** fetchMarketData *)

Lemma replace_not_included (s pattern replacement : string) :
  includes s pattern = false -> replace s pattern replacement = s.
Proof.
  induction s as [| c r IH]; cbn [includes replace]; intros H;
    apply orb_false_iff in H as [H1 H2]; rewrite H1.
  - done.
  - f_equal. by apply IH.
Qed.

Lemma append_String (c : ascii) (s t : string) :
  String c s +:+ t = String c (s +:+ t).
Proof. reflexivity. Qed.

Lemma append_empty (t : string) : EmptyString +:+ t = t.
Proof. reflexivity. Qed.

Lemma startsWith_USDT_app (base : string) :
  base <> EmptyString -> startsWith "USDT" base = false ->
  startsWith "USDT" (base +:+ "USDT") = false.
Proof.
  destruct base as [| c1 [| c2 [| c3 [| c4 r]]]]; [done | | | |]; intros _;
    rewrite ?append_String, ?append_empty; cbn [startsWith];
    repeat match goal with
           | |- context [Ascii.eqb ?a ?b] => is_var b; destruct (Ascii.eqb a b)
           end; done.
Qed.

(** A symbol made of a base that has no [USDT] in it, and [USDT], is cut back
    to the base. *)
Lemma replace_USDT_suffix (base : string) :
  includes base "USDT" = false -> replace (base +:+ "USDT") "USDT" "" = base.
Proof.
  induction base as [| c r IH]; [done |].
  intros H. pose proof H as H'. cbn [includes] in H'.
  apply orb_false_iff in H' as [H1 H2].
  rewrite append_String. cbn [replace]. rewrite <- append_String.
  rewrite (startsWith_USDT_app (String c r)) by done.
  f_equal. by apply IH.
Qed.

Lemma fetchMarketData_answered (fetch : Endpoint) (symbol : string) (data : json) :
  replied fetch (market_url symbol) data -> data <> JNull ->
  exists lastPrice quoteVolume volume priceChangePercent highPrice lowPrice,
    get (Some data) "lastPrice" = Normal lastPrice /\
    get (Some data) "quoteVolume" = Normal quoteVolume /\
    get (Some data) "volume" = Normal volume /\
    get (Some data) "priceChangePercent" = Normal priceChangePercent /\
    get (Some data) "highPrice" = Normal highPrice /\
    get (Some data) "lowPrice" = Normal lowPrice /\
    fetchMarketData fetch symbol =
      Normal
        match mapM parseFloat [lastPrice; quoteVolume; volume; priceChangePercent;
                               highPrice; lowPrice] with
        | Normal [current_price; market_cap; volume_24h; price_change_24h;
                  high_24h; low_24h] =>
            Some (Market.mk symbol (replace symbol "USDT" "")
                    (replace symbol "USDT" "")
                    current_price market_cap volume_24h price_change_24h
                    high_24h low_24h zero zero)
        | _ => None
        end.
Proof.
  unfold fetchMarketData. intros Hr Hne. rewrite Hr.
  destruct (get_not_null data "lastPrice" Hne) as [v1 H1].
  destruct (get_not_null data "quoteVolume" Hne) as [v2 H2].
  destruct (get_not_null data "volume" Hne) as [v3 H3].
  destruct (get_not_null data "priceChangePercent" Hne) as [v4 H4].
  destruct (get_not_null data "highPrice" Hne) as [v5 H5].
  destruct (get_not_null data "lowPrice" Hne) as [v6 H6].
  exists v1, v2, v3, v4, v5, v6. split_and!; try done.
  rewrite !completion_mapM_cons.
  unfold mbind, completion_bind, mret, completion_ret.
  cbn [reply_ok reply_json negb throw_if].
  rewrite H1, H2, H3, H4, H5, H6.
  destruct (parseFloat v1); [| done].
  destruct (parseFloat v2); [| done].
  destruct (parseFloat v3); [| done].
  destruct (parseFloat v4); [| done].
  destruct (parseFloat v5); [| done].
  destruct (parseFloat v6); done.
Qed.

Lemma mapM_parseFloat_printable (vs : list value) :
  if forallb value_printable vs
  then exists ns, mapM parseFloat vs = Normal ns /\ length ns = length vs
  else mapM parseFloat vs = Throw TypeError.
Proof.
  induction vs as [| v vs IH]; [by exists [] |].
  cbn [forallb]. rewrite completion_mapM_cons.
  destruct (parseFloat_cases v) as [[-> [n ->]] | [-> ->]]; [| done].
  cbn [andb]. destruct (forallb value_printable vs).
  - destruct IH as (ns & -> & Hlen). exists (n :: ns). split; [done |].
    cbn [length]. by rewrite Hlen.
  - by rewrite IH.
Qed.

(** X3.  [fetchMarketData] never throws.  When the request is answered with a
    success status and a JSON body other than [null], and ToString converts
    the six members [lastPrice], [quoteVolume], [volume],
    [priceChangePercent], [highPrice] and [lowPrice] of the body (a missing
    member is [undefined] and is converted), it returns a record whose [id] is
    the symbol as given, whose [symbol] and [name] are both the symbol without
    its first [USDT], whose two supplies are 0 and whose six other numbers
    are [parseFloat] of those members.  When one of the six is not converted
    (an object with a member [toString], or an array that holds one), and in
    every other case, it returns [null]. *)
Theorem fetchMarketData_result (fetch : Endpoint) (symbol : string) :
  (forall data, replied fetch (market_url symbol) data -> data <> JNull ->
     exists lastPrice quoteVolume volume priceChangePercent highPrice lowPrice,
       get (Some data) "lastPrice" = Normal lastPrice /\
       get (Some data) "quoteVolume" = Normal quoteVolume /\
       get (Some data) "volume" = Normal volume /\
       get (Some data) "priceChangePercent" = Normal priceChangePercent /\
       get (Some data) "highPrice" = Normal highPrice /\
       get (Some data) "lowPrice" = Normal lowPrice /\
       let members := [lastPrice; quoteVolume; volume; priceChangePercent;
                       highPrice; lowPrice] in
       (forallb value_printable members = true ->
        exists current_price market_cap volume_24h price_change_24h high_24h low_24h,
          mapM parseFloat members =
            Normal [current_price; market_cap; volume_24h; price_change_24h;
                    high_24h; low_24h] /\
          fetchMarketData fetch symbol =
            Normal (Some (Market.mk symbol (replace symbol "USDT" "")
                            (replace symbol "USDT" "")
                            current_price market_cap volume_24h price_change_24h
                            high_24h low_24h zero zero))) /\
       (forallb value_printable members = false ->
        fetchMarketData fetch symbol = Normal None)) /\
  (~ answered fetch (market_url symbol) ->
   fetchMarketData fetch symbol = Normal None).
Proof.
  split.
  - intros data Hr Hne.
    destruct (fetchMarketData_answered fetch symbol data Hr Hne)
      as (v1 & v2 & v3 & v4 & v5 & v6 & H1 & H2 & H3 & H4 & H5 & H6 & Hres).
    exists v1, v2, v3, v4, v5, v6. split_and!; try done. cbv zeta.
    pose proof (mapM_parseFloat_printable [v1; v2; v3; v4; v5; v6]) as Hm.
    split.
    + intros Hp. rewrite Hp in Hm. destruct Hm as (ns & Hns & Hlen).
      destruct ns as [| n1 [| n2 [| n3 [| n4 [| n5 [| n6 [| n7 ns]]]]]]];
        try discriminate Hlen.
      exists n1, n2, n3, n4, n5, n6. split; [done |]. by rewrite Hres, Hns.
    + intros Hp. rewrite Hp in Hm. by rewrite Hres, Hm.
  - unfold fetchMarketData, mbind, completion_bind, mret, completion_ret.
    intros Hna.
    destruct (answered_or_not fetch (market_url symbol))
      as [Ha | [[e ->] | [[j ->] | [[e ->] | ->]]]]; done.
Qed.

Lemma fetchMarketData_result_witness :
  fetchMarketData offline "BTCUSDT" = Normal None /\
  fetchMarketData (always JNull) "BTCUSDT" = Normal None /\
  fetchMarketData
    (always (JObject [("lastPrice", JObject [("toString", JNumber one)])]%string))
    "BTCUSDT" = Normal None /\
  fetchMarketData (always (JObject [("lastPrice", JString "65000.12")]%string))
                  "BTCUSDT" =
    Normal (Some (Market.mk "BTCUSDT" "BTC" "BTC" number_65000_12 nan nan nan nan nan
                    zero zero)).
Proof.
  split_and!.
  - apply (proj2 (fetchMarketData_result offline "BTCUSDT")).
    intros (data & Hr & _). discriminate Hr.
  - apply (proj2 (fetchMarketData_result (always JNull) "BTCUSDT")).
    intros (data & Hr & Hne). injection Hr as <-. by apply Hne.
  - destruct (proj1 (fetchMarketData_result
                       (always (JObject [("lastPrice",
                                          JObject [("toString", JNumber one)])]%string))
                       "BTCUSDT") _ eq_refl ltac:(discriminate))
      as (v1 & v2 & v3 & v4 & v5 & v6 & H1 & H2 & H3 & H4 & H5 & H6 & _ & H).
    injection H1 as <-. injection H2 as <-. injection H3 as <-.
    injection H4 as <-. injection H5 as <-. injection H6 as <-.
    exact (H eq_refl).
  - destruct (proj1 (fetchMarketData_result
                       (always (JObject [("lastPrice", JString "65000.12")]%string))
                       "BTCUSDT") _ eq_refl ltac:(discriminate))
      as (v1 & v2 & v3 & v4 & v5 & v6 & H1 & H2 & H3 & H4 & H5 & H6 & H & _).
    injection H1 as <-. injection H2 as <-. injection H3 as <-.
    injection H4 as <-. injection H5 as <-. injection H6 as <-.
    destruct (H eq_refl) as (n1 & n2 & n3 & n4 & n5 & n6 & Hn & ->).
    injection Hn as <- <- <- <- <- <-. reflexivity.
Defined.

Lemma fetchMarketData_cases (fetch : Endpoint) (symbol : string) :
  fetchMarketData fetch symbol = Normal None \/
  exists current_price market_cap volume_24h price_change_24h high_24h low_24h,
    fetchMarketData fetch symbol =
      Normal (Some (Market.mk symbol (replace symbol "USDT" "")
                      (replace symbol "USDT" "")
                      current_price market_cap volume_24h price_change_24h
                      high_24h low_24h zero zero)).
Proof.
  destruct (answered_or_not fetch (market_url symbol))
    as [(data & Hr & Hne) | Hna].
  - destruct (fetchMarketData_answered fetch symbol data Hr Hne)
      as (v1 & v2 & v3 & v4 & v5 & v6 & _ & _ & _ & _ & _ & _ & ->).
    destruct (mapM parseFloat _)
      as [[| n1 [| n2 [| n3 [| n4 [| n5 [| n6 [| n7 ns]]]]]]] |]; eauto 10.
  - left. unfold fetchMarketData, mbind, completion_bind, mret, completion_ret.
    destruct Hna as [[e ->] | [[j ->] | [[e ->] | ->]]]; done.
Qed.

(** X4.  Whenever [fetchMarketData] returns a record, its [id] is the symbol
    as given and its [name] is its [symbol]; of the symbol [base + "USDT"],
    where the base has no [USDT] in it, the record has the base as [symbol]
    and [name]; of a symbol with no [USDT] in it, it has the whole symbol. *)
Theorem fetchMarketData_symbol (fetch : Endpoint) (symbol base : string)
    (market : Market.t) :
  fetchMarketData fetch symbol = Normal (Some market) ->
  Market.id market = symbol /\
  Market.name market = Market.symbol market /\
  (symbol = base +:+ "USDT" -> includes base "USDT" = false ->
   Market.symbol market = base) /\
  (includes symbol "USDT" = false -> Market.symbol market = symbol).
Proof.
  intros Hm.
  destruct (fetchMarketData_cases fetch symbol)
    as [H | (n1 & n2 & n3 & n4 & n5 & n6 & H)]; rewrite H in Hm; [done |].
  injection Hm as <-. cbn [Market.id Market.name Market.symbol].
  split_and!; try done.
  - intros -> Hb. by apply replace_USDT_suffix.
  - intros Hs. by apply replace_not_included.
Qed.

Lemma fetchMarketData_symbol_witness :
  Market.id (Market.mk "BTCUSDT" "BTC" "BTC" number_65000_12 nan nan nan nan nan
               zero zero) = "BTCUSDT"%string /\
  Market.symbol (Market.mk "BTCUSDT" "BTC" "BTC" number_65000_12 nan nan nan nan nan
                   zero zero) = "BTC"%string.
Proof.
  destruct (fetchMarketData_symbol
              (always (JObject [("lastPrice", JString "65000.12")]%string))
              "BTCUSDT" "BTC"
              (Market.mk "BTCUSDT" "BTC" "BTC" number_65000_12 nan nan nan nan nan
                 zero zero))
    as (H1 & _ & H3 & _).
  - vm_compute. reflexivity.
  - split; [exact H1 | exact (H3 eq_refl eq_refl)].
Defined.

(** *** fetchOrderBook *)

Lemma level_of_null : level_of JNull = Throw TypeError.
Proof. reflexivity. Qed.

Lemma get_index_element (entry : json) (i : nat) :
  entry <> JNull -> get_index entry i = Normal (entry_element entry i).
Proof. unfold entry_element. by destruct entry. Qed.

Lemma level_of_readable (entry : json) :
  level_readable entry = true ->
  exists price quantity,
    parseFloat (entry_element entry 0) = Normal price /\
    parseFloat (entry_element entry 1) = Normal quantity /\
    level_of entry = Normal (Level.mk price quantity).
Proof.
  intros H.
  assert (Hne : entry <> JNull) by (by intros ->).
  assert (Hp : value_printable (entry_element entry 0) &&
               value_printable (entry_element entry 1) = true)
    by (by destruct entry).
  apply andb_true_iff in Hp as [H0 H1].
  destruct (parseFloat_printable _ H0) as [price Hprice].
  destruct (parseFloat_printable _ H1) as [quantity Hquantity].
  exists price, quantity. split_and!; [done | done |].
  unfold level_of, mbind, completion_bind, mret, completion_ret.
  by rewrite !get_index_element, Hprice, Hquantity.
Qed.

Lemma level_of_unreadable (entry : json) :
  level_readable entry = false -> level_of entry = Throw TypeError.
Proof.
  intros H.
  assert (entry = JNull \/ entry <> JNull) as [-> | Hne]
    by (destruct entry; auto; right; discriminate); [done |].
  assert (Hp : value_printable (entry_element entry 0) &&
               value_printable (entry_element entry 1) = false)
    by (by destruct entry).
  unfold level_of, mbind, completion_bind, mret, completion_ret.
  rewrite !get_index_element by done.
  destruct (parseFloat_cases (entry_element entry 0)) as [[H0 [n ->]] | [_ ->]];
    [| done].
  rewrite H0 in Hp. cbn [andb] in Hp.
  by rewrite (parseFloat_unprintable _ Hp).
Qed.

Lemma mapM_level_of_readable (l : list json) :
  if forallb level_readable l
  then exists levels, mapM level_of l = Normal levels /\ Forall2 level_is l levels
  else mapM level_of l = Throw TypeError.
Proof.
  induction l as [| entry l IH]; [by exists [] |].
  cbn [forallb]. rewrite completion_mapM_cons.
  destruct (level_readable entry) eqn:E.
  - destruct (level_of_readable entry E) as (p & q & _ & _ & Hl). rewrite Hl.
    cbn [andb]. destruct (forallb level_readable l).
    + destruct IH as (levels & -> & HF). eexists. split; [reflexivity |].
      by constructor.
    + by rewrite IH.
  - by rewrite (level_of_unreadable entry E).
Qed.

Lemma mapM_level_of_Normal (l : list json) (levels : list Level.t) :
  mapM level_of l = Normal levels -> JNull ∉ l.
Proof.
  revert levels. induction l as [| entry l IH]; intros levels H.
  - apply not_elem_of_nil.
  - rewrite completion_mapM_cons in H.
    destruct (mapM level_of l) as [ks |] eqn:E; [| by destruct (level_of entry)].
    apply not_elem_of_cons. split; [| by eapply IH].
    intros <-. by rewrite level_of_null in H.
Qed.

(** X5.  [fetchOrderBook] returns the empty book, with no bid and no ask,
    whenever the request is not answered with a success status and a body
    whose [bids] and [asks] are both arrays without a [null] element: one
    side that cannot be read empties the other side too. *)
Theorem fetchOrderBook_empty (fetch : Endpoint) (symbol : string) :
  (~ exists data_bids data_asks, book_reply fetch symbol data_bids data_asks) ->
  fetchOrderBook fetch symbol = Normal (OrderBook.mk [] []).
Proof.
  intros Hno. unfold fetchOrderBook, mbind, completion_bind, mret, completion_ret.
  destruct (fetch (depth_url symbol)) as [[[] [data | e]] | e] eqn:Hf; try done.
  cbn [reply_ok reply_json negb throw_if].
  destruct (get (Some data) "bids") as [[[| | | | bs |] |] |] eqn:Hb; try done.
  cbn [array_map].
  destruct (mapM level_of bs) as [bids |] eqn:Mb; [| done].
  destruct (get (Some data) "asks") as [[[| | | | as_ |] |] |] eqn:Ha; try done.
  cbn [array_map].
  destruct (mapM level_of as_) as [asks |] eqn:Ma; [| done].
  exfalso. apply Hno. exists bs, as_, data.
  split_and!; [done | done | done | by eapply mapM_level_of_Normal
              | by eapply mapM_level_of_Normal].
Qed.

(** X6.  Of a reply whose [bids] and [asks] are arrays, [fetchOrderBook]
    returns one level for each entry, in the order of the reply, however many
    there are, when every entry of both sides can be read: the entry is not
    [null], and ToString converts its first and its second element.  The
    price is then [parseFloat] of the first element and the quantity
    [parseFloat] of the second; of an entry [[p, q, ...]] of two strings
    these are [parseFloat] of [p] and of [q].  When one entry of either side
    cannot be read, the result is the empty book. *)
Theorem fetchOrderBook_levels (fetch : Endpoint) (symbol : string)
    (data_bids data_asks : list json) :
  book_sides fetch symbol data_bids data_asks ->
  (forallb level_readable (data_bids ++ data_asks) = true ->
   exists bids asks,
     fetchOrderBook fetch symbol = Normal (OrderBook.mk bids asks) /\
     Forall2 level_is data_bids bids /\ Forall2 level_is data_asks asks) /\
  (forallb level_readable (data_bids ++ data_asks) = false ->
   fetchOrderBook fetch symbol = Normal (OrderBook.mk [] [])) /\
  (forall entry level, level_is entry level ->
     parseFloat (entry_element entry 0) = Normal (Level.price level) /\
     parseFloat (entry_element entry 1) = Normal (Level.quantity level)) /\
  (forall p q rest,
     level_is (JArray (JString p :: JString q :: rest))
              (Level.mk (parseFloat_string p) (parseFloat_string q))).
Proof.
  intros (data & Hr & Hb & Ha).
  pose proof (mapM_level_of_readable data_bids) as Mb.
  pose proof (mapM_level_of_readable data_asks) as Ma.
  assert (Hres : fetchOrderBook fetch symbol =
            match mapM level_of data_bids, mapM level_of data_asks with
            | Normal bids, Normal asks => Normal (OrderBook.mk bids asks)
            | _, _ => Normal (OrderBook.mk [] [])
            end).
  { unfold fetchOrderBook, mbind, completion_bind, mret, completion_ret.
    rewrite Hr. cbn [reply_ok reply_json negb throw_if].
    rewrite Hb. cbn [array_map]. destruct (mapM level_of data_bids); [| done].
    rewrite Ha. cbn [array_map]. by destruct (mapM level_of data_asks). }
  rewrite forallb_app. split_and!.
  - intros H. apply andb_true_iff in H as [H1 H2]. rewrite H1 in Mb. rewrite H2 in Ma.
    destruct Mb as (bids & Eb & Fb). destruct Ma as (asks & Ea & Fa).
    exists bids, asks. by rewrite Hres, Eb, Ea.
  - intros H. rewrite Hres. destruct (forallb level_readable data_bids).
    + cbn [andb] in H. rewrite H in Ma. rewrite Ma. by destruct (mapM level_of data_bids).
    + by rewrite Mb.
  - intros entry level Hl. unfold level_is in Hl.
    destruct (level_readable entry) eqn:E.
    + destruct (level_of_readable entry E) as (p & q & Hp & Hq & Hl').
      rewrite Hl' in Hl. by injection Hl as <-.
    + by rewrite (level_of_unreadable entry E) in Hl.
  - reflexivity.
Qed.

Lemma fetchOrderBook_empty_witness :
  fetchOrderBook
    (always (JObject [("bids", JArray [JArray [JString "1.5"; JString "2"]])]%string))
    "BTCUSDT" = Normal (OrderBook.mk [] []).
Proof.
  apply fetchOrderBook_empty.
  intros (bs & as_ & data & Hr & _ & Ha & _).
  injection Hr as <-. discriminate Ha.
Defined.

Lemma fetchOrderBook_levels_witness :
  (exists bids asks,
     fetchOrderBook (always sample_book) "BTCUSDT" = Normal (OrderBook.mk bids asks) /\
     Forall2 level_is
       [JArray [JString "1.5"; JString "2"]; JArray [JString "1.4"; JString "3"]] bids /\
     Forall2 level_is [JArray [JString "1.6"; JString "7"]] asks) /\
  fetchOrderBook (always unreadable_book) "BTCUSDT" = Normal (OrderBook.mk [] []).
Proof.
  split.
  - refine (proj1 (fetchOrderBook_levels (always sample_book) "BTCUSDT"
                     [JArray [JString "1.5"; JString "2"];
                      JArray [JString "1.4"; JString "3"]]
                     [JArray [JString "1.6"; JString "7"]] _) eq_refl).
    exists sample_book. split_and!; reflexivity.
  - refine (proj1 (proj2 (fetchOrderBook_levels (always unreadable_book) "BTCUSDT"
                            [JArray [JObject [("toString", JNumber one)]%string;
                                     JString "2"]] [] _)) eq_refl).
    exists unreadable_book. split_and!; reflexivity.
Defined.

(** ** Strings *)

Lemma lower_unit_idemp (c : ascii) : lower_unit (lower_unit c) = lower_unit c.
Proof. by destruct c as [[] [] [] [] [] [] [] []]. Qed.

Lemma toLowerCase_idemp (s : string) : toLowerCase (toLowerCase s) = toLowerCase s.
Proof.
  induction s as [| c r IH]; [done |].
  cbn [toLowerCase]. by rewrite lower_unit_idemp, IH.
Qed.

Lemma append_length (s t : string) :
  String.length (s +:+ t) = (String.length s + String.length t)%nat.
Proof.
  induction s as [| c r IH]; [done |].
  rewrite append_String. cbn [String.length]. by rewrite IH.
Qed.

Lemma append_inv_head (p a b : string) : p +:+ a = p +:+ b -> a = b.
Proof.
  induction p as [| c r IH]; [done |].
  rewrite !append_String. intros [= H]. by apply IH.
Qed.

Lemma append_inv_tail (a b t : string) : a +:+ t = b +:+ t -> a = b.
Proof.
  revert b. induction a as [| c r IH]; intros [| d b] H.
  - done.
  - apply (f_equal String.length) in H.
    rewrite append_String in H. cbn [String.length] in H.
    rewrite append_empty, append_length in H. lia.
  - apply (f_equal String.length) in H.
    rewrite append_String in H. cbn [String.length] in H.
    rewrite append_empty, append_length in H. lia.
  - rewrite !append_String in H. injection H as -> H. f_equal. by apply IH.
Qed.

(** X7.  The two URL builders read the symbol up to the case of its letters:
    two symbols give the same URL exactly when their lower cases agree, and a
    symbol gives the URL of its lower case. *)
Theorem websocket_urls_case (a b : string) :
  (getPriceWebSocketUrl a = getPriceWebSocketUrl b <-> toLowerCase a = toLowerCase b) /\
  (getBinanceWebSocketUrl a = getBinanceWebSocketUrl b <->
   toLowerCase a = toLowerCase b) /\
  getPriceWebSocketUrl (toLowerCase a) = getPriceWebSocketUrl a /\
  getBinanceWebSocketUrl (toLowerCase a) = getBinanceWebSocketUrl a.
Proof.
  unfold getPriceWebSocketUrl, getBinanceWebSocketUrl.
  split_and!.
  - split; [| by intros ->].
    intros H. apply append_inv_head in H. by apply append_inv_tail in H.
  - split; [| by intros ->].
    intros H. apply append_inv_head in H. by apply append_inv_tail in H.
  - by rewrite toLowerCase_idemp.
  - by rewrite toLowerCase_idemp.
Qed.

(** ** The digits of toFixed *)

Lemma all_units_app (P : ascii -> bool) (s t : string) :
  all_units P (s +:+ t) = all_units P s && all_units P t.
Proof.
  induction s as [| c r IH]; [done |].
  rewrite append_String. cbn [all_units]. by rewrite IH, andb_assoc.
Qed.

Lemma all_units_impl (P Q : ascii -> bool) (s : string) :
  (forall c, P c = true -> Q c = true) ->
  all_units P s = true -> all_units Q s = true.
Proof.
  intros HPQ. induction s as [| c r IH]; [done |].
  cbn [all_units]. rewrite !andb_true_iff. intros [H1 H2]. auto.
Qed.

Lemma all_units_substring (P : ascii -> bool) (s : string) (n m : nat) :
  all_units P s = true -> all_units P (String.substring n m s) = true.
Proof.
  revert n m. induction s as [| c r IH]; intros n m H.
  - by destruct n, m.
  - cbn [all_units] in H. apply andb_true_iff in H as [H1 H2].
    destruct n as [| n]; cbn [String.substring].
    + destruct m as [| m]; [done |]. cbn [all_units]. by rewrite H1, IH.
    + by apply IH.
Qed.

Lemma substring_length (s : string) (n m : nat) :
  (n + m <= String.length s)%nat -> String.length (String.substring n m s) = m.
Proof.
  revert n m. induction s as [| c r IH]; intros n m H; cbn [String.length] in H.
  - by destruct n, m; try lia.
  - destruct n as [| n]; cbn [String.substring].
    + destruct m as [| m]; [done |]. cbn [String.length]. rewrite IH; lia.
    + apply IH. lia.
Qed.

Lemma is_digit_plain (c : ascii) : is_digit c = true -> plain_unit c = true.
Proof. by destruct c as [[] [] [] [] [] [] [] []]. Qed.

Lemma string_of_uint_digits (d : Decimal.uint) :
  all_units is_digit (NilEmpty.string_of_uint d) = true.
Proof. induction d; cbn [NilEmpty.string_of_uint all_units]; by rewrite ?IHd. Qed.

Lemma digits_string_digits (n : Z) : all_units is_digit (digits_string n) = true.
Proof.
  unfold digits_string, NilZero.string_of_uint.
  destruct (N.to_uint (Z.to_N n)) eqn:E; try done; rewrite <- E;
    apply string_of_uint_digits.
Qed.

Lemma digits_string_length (n : Z) : (1 <= String.length (digits_string n))%nat.
Proof.
  unfold digits_string, NilZero.string_of_uint.
  destruct (N.to_uint (Z.to_N n)); cbn [NilEmpty.string_of_uint String.length]; lia.
Qed.

Lemma zeros_digits (n : Z) : all_units is_digit (zeros n) = true.
Proof. unfold zeros. by induction (Z.to_nat n) as [| k IH]. Qed.

Lemma zeros_length (n : Z) : String.length (zeros n) = Z.to_nat n.
Proof.
  unfold zeros. induction (Z.to_nat n) as [| k IH]; [done |].
  cbn [repeat string_of_list_ascii String.length]. by rewrite IH.
Qed.

Lemma fixed_digits_shape (n f : Z) :
  0 < f ->
  exists int frac,
    fixed_digits n f = int +:+ "." +:+ frac /\
    all_units is_digit int = true /\ all_units is_digit frac = true /\
    (1 <= String.length int)%nat /\ String.length frac = Z.to_nat f.
Proof.
  intros Hf. unfold fixed_digits.
  destruct (Z.eqb_spec f 0) as [| _]; [lia |].
  pose proof (digits_string_length n) as Hlen.
  pose proof (digits_string_digits n) as Hdig.
  set (m := digits_string n) in *.
  set (k := Z.of_nat (String.length m)).
  assert (exists m', (if k <=? f then zeros (f + 1 - k) +:+ m else m) = m' /\
            all_units is_digit m' = true /\
            Z.of_nat (String.length m') = Z.max k (f + 1)) as (m' & -> & Hm' & Hk).
  { destruct (Z.leb_spec k f).
    - eexists; split; [reflexivity |]. split.
      + by rewrite all_units_app, zeros_digits, Hdig.
      + rewrite append_length, zeros_length. subst k. lia.
    - eexists; split; [reflexivity |]. split; [done | subst k; lia]. }
  cbv zeta. set (k' := Z.max k (f + 1)) in *.
  assert (f + 1 <= k') by (subst k'; lia).
  eexists _, _. split; [reflexivity |]. unfold sub_string.
  split; [by apply all_units_substring |].
  split; [by apply all_units_substring |].
  rewrite !substring_length by lia. lia.
Qed.

Ltac units :=
  rewrite ?all_units_app, ?andb_true_iff; unfold sub_string;
  repeat match goal with
  | |- _ /\ _ => split
  | |- all_units _ (_ +:+ _) = true => rewrite all_units_app, andb_true_iff
  | |- all_units _ (String.substring _ _ _) = true => apply all_units_substring
  | |- all_units plain_unit (digits_string _) = true =>
      apply (all_units_impl is_digit), digits_string_digits; apply is_digit_plain
  | |- all_units plain_unit (zeros _) = true =>
      apply (all_units_impl is_digit), zeros_digits; apply is_digit_plain
  | |- all_units _ _ = true => reflexivity
  end.

Lemma toString_positive_plain (m : positive) (e : Z) :
  all_units plain_unit (toString_positive m e) = true.
Proof.
  unfold toString_positive. cbv zeta.
  destruct (shortest_digits _ _ _ _ _) as [s0 k0].
  destruct (s0 =? 10 ^ k0);
    repeat match goal with
    | |- context [if ?b then _ else _] => destruct b
    end; units.
Qed.

Lemma fixed_digits_plain (n f : Z) : all_units plain_unit (fixed_digits n f) = true.
Proof.
  unfold fixed_digits. cbv zeta.
  repeat match goal with
  | |- context [if ?b then _ else _] => destruct b
  end; units.
Qed.

Lemma toFixed_plain (x : number) (f : Z) : all_units plain_unit (toFixed x f) = true.
Proof.
  destruct x as [s | [] | | s m e]; try done.
  - apply fixed_digits_plain.
  - unfold toFixed. destruct (ratio_of m e) as [p q].
    rewrite all_units_app.
    destruct (10 ^ 21 * q <=? p);
      rewrite ?toString_positive_plain, ?fixed_digits_plain; by destruct s.
Qed.

Lemma toFixed_shape (x : number) (f : Z) :
  0 < f -> below_1e21 x ->
  exists int frac,
    toFixed x f = (if num_lt x zero then "-" else "") +:+ int +:+ "." +:+ frac /\
    all_units is_digit int = true /\ all_units is_digit frac = true /\
    (1 <= String.length int)%nat /\ String.length frac = Z.to_nat f.
Proof.
  intros Hf Hx. destruct x as [s | | | s m e]; try done.
  - destruct (fixed_digits_shape 0 f Hf) as (int & frac & H).
    exists int, frac. by destruct s.
  - cbn [below_1e21] in Hx. unfold toFixed.
    destruct (ratio_of m e) as [p q]. cbn [fst snd] in Hx.
    destruct (Z.leb_spec (10 ^ 21 * q) p) as [| _]; [lia |].
    destruct (fixed_digits_shape ((2 * p * 10 ^ f + q) / (2 * q)) f Hf)
      as (int & frac & -> & H).
    exists int, frac. by destruct s.
Qed.

(** ** formatPrice and formatVolume *)

(** X8. formatPrice (not NaN, magnitude below 10^21) is an optional minus
    sign, at least one digit, a point, and 2 fraction digits for a price of at
    least 1, 4 for a price of at least 0.01, and 8 for anything smaller,
    negative prices included. *)
Theorem formatPrice_decimals (price : number) :
  below_1e21 price ->
  exists int frac,
    formatPrice price =
      (if num_lt price zero then "-" else "") +:+ int +:+ "." +:+ frac /\
    all_units is_digit int = true /\ all_units is_digit frac = true /\
    (1 <= String.length int)%nat /\
    String.length frac =
      (if num_ge price one then 2
       else if num_ge price hundredth then 4 else 8)%nat.
Proof.
  intros H. unfold formatPrice.
  destruct (num_ge price one); [| destruct (num_ge price hundredth)];
    by apply toFixed_shape.
Qed.

Lemma formatPrice_decimals_witness :
  exists int frac,
    formatPrice (number_of_decimal true 5 0) = "-" +:+ int +:+ "." +:+ frac /\
    all_units is_digit int = true /\ all_units is_digit frac = true /\
    (1 <= String.length int)%nat /\ String.length frac = 8%nat.
Proof.
  apply (formatPrice_decimals (number_of_decimal true 5 0)).
  vm_compute. reflexivity.
Defined.

Lemma ends_with_unit_snoc (c d : ascii) (s : string) :
  ends_with_unit c (s +:+ String d EmptyString) = Ascii.eqb d c.
Proof.
  induction s as [| a r IH]; [done |].
  rewrite append_String. cbn [ends_with_unit]. rewrite IH.
  destruct r; [done |]. by rewrite append_String.
Qed.

Lemma ends_with_unit_all (P : ascii -> bool) (c : ascii) (s : string) :
  all_units P s = true -> P c = false -> ends_with_unit c s = false.
Proof.
  intros Hs Hc. induction s as [| a r IH]; [done |].
  cbn [all_units] in Hs. apply andb_true_iff in Hs as [Ha Hr].
  cbn [ends_with_unit]. destruct r as [| b r'].
  - destruct (Ascii.eqb_spec a c) as [-> |]; [congruence | done].
  - by apply IH.
Qed.

Lemma append_assoc (s t u : string) : (s +:+ t) +:+ u = s +:+ (t +:+ u).
Proof.
  induction s as [| c r IH]; [done |]. by rewrite !append_String, IH.
Qed.

(** X9. formatVolume always starts with the dollar sign, and its last
    character tells the branch taken: B exactly for a volume of at least
    10^9, M exactly for one of at least 10^6 below that, K exactly for one of
    at least 10^3 below that.  A NaN or negative volume has no suffix. *)
Theorem formatVolume_suffix (volume : number) :
  startsWith "$" (formatVolume volume) = true /\
  ends_with_unit "B" (formatVolume volume) = num_ge volume billion /\
  ends_with_unit "M" (formatVolume volume) =
    negb (num_ge volume billion) && num_ge volume million /\
  ends_with_unit "K" (formatVolume volume) =
    negb (num_ge volume billion) && negb (num_ge volume million) &&
    num_ge volume thousand.
Proof.
  assert (forall x c, plain_unit c = false ->
            ends_with_unit c ("$" +:+ toFixed x 2) = false) as Hplain.
  { intros x c Hc. apply (ends_with_unit_all plain_unit); [| done].
    by rewrite all_units_app, toFixed_plain. }
  unfold formatVolume.
  destruct (num_ge volume billion); [| destruct (num_ge volume million);
    [| destruct (num_ge volume thousand)]];
    rewrite <- ?append_assoc, ?ends_with_unit_snoc, ?Hplain by done; done.
Qed.

(** ** The ticker map *)

Lemma foldl_tickerMap_lookup (tickers : list BinanceTicker.t)
    (m : gmap string BinanceTicker.t) (s : string) :
  foldl (fun m t => <[BinanceTicker.symbol t := t]> m) m tickers !! s =
    match last (filter (fun t => BinanceTicker.symbol t = s) tickers) with
    | Some t => Some t
    | None => m !! s
    end.
Proof.
  induction tickers as [| t l IH] using rev_ind; [done |].
  rewrite foldl_app, filter_app, filter_cons, filter_nil. cbn [foldl].
  destruct (decide (BinanceTicker.symbol t = s)) as [E | E].
  - by rewrite last_snoc, <- E, lookup_insert_eq.
  - by rewrite app_nil_r, lookup_insert_ne.
Qed.

(** X10.  The ticker map holds, for each symbol, the last ticker of the array
    that carries it, and nothing for a symbol that no ticker carries. *)
Theorem make_tickerMap_last (tickers : list BinanceTicker.t) (s : string) :
  make_tickerMap tickers !! s =
    last (filter (fun t => BinanceTicker.symbol t = s) tickers).
Proof.
  unfold make_tickerMap. rewrite foldl_tickerMap_lookup, lookup_empty.
  by destruct (last _).
Qed.

(** ** How many tokens, and which *)

Lemma ranked_tokens_length symbols tickers limit :
  Z.of_nat (length (ranked_tokens symbols tickers limit)) =
    relative_index (Z.of_nat (length (usdtPairs symbols))) limit.
Proof.
  unfold ranked_tokens, sortedPairs. cbv zeta. fold (usdtPairs symbols).
  rewrite length_fmap, slice_0_take, length_take, sort_length, length_fmap.
  unfold relative_index. destruct (Z.ltb_spec limit 0); lia.
Qed.

(** X11.  When both requests succeed, the result has as many tokens as the
    limit allows of the instruments that pass the filter: the smaller of the
    two numbers for a limit that is not negative, and for a negative limit
    the number of instruments less its magnitude, or none. *)
Theorem fetchTopTokens_length (fetch : Network) (limit : option Z)
    (symbols : list BinancePair.t) (tickers : list BinanceTicker.t) :
  succeeds fetch exchangeInfo_url (ExchangeInfo symbols) ->
  succeeds fetch ticker24hr_url (Tickers tickers) ->
  exists ts,
    fetchTopTokens fetch limit = Normal ts /\
    Z.of_nat (length ts) =
      let count := Z.of_nat (length (usdtPairs symbols)) in
      let n := default 300 limit in
      if n <? 0 then Z.max (count + n) 0 else Z.min n count.
Proof.
  intros H1 H2. eexists. split; [by apply fetchTopTokens_succeeds |].
  apply ranked_tokens_length.
Qed.

Lemma fetchTopTokens_length_witness :
  exists ts,
    fetchTopTokens sample_exchange (Some (-2)) = Normal ts /\
    Z.of_nat (length ts) = 3.
Proof.
  exact (fetchTopTokens_length sample_exchange (Some (-2)) sample_symbols
           sample_tickers eq_refl eq_refl).
Defined.

Lemma sortedPairs_all symbols tickerMap limit :
  Z.of_nat (length (usdtPairs symbols)) <= limit ->
  sortedPairs symbols tickerMap limit =
    sort compare_ranked (rank_pair tickerMap <$> usdtPairs symbols).
Proof.
  intros H. unfold sortedPairs. cbv zeta. fold (usdtPairs symbols).
  rewrite slice_0_take. apply take_ge.
  rewrite sort_length, length_fmap. unfold relative_index.
  destruct (Z.ltb_spec limit 0); lia.
Qed.

(** X12.  When the limit is at least the number of instruments that pass the
    filter, the result holds the token of each of them, each as often as the
    catalog lists the instrument: nothing is dropped and nothing is added. *)
Theorem fetchTopTokens_complete (fetch : Network) (limit : option Z)
    (symbols : list BinancePair.t) (tickers : list BinanceTicker.t) :
  succeeds fetch exchangeInfo_url (ExchangeInfo symbols) ->
  succeeds fetch ticker24hr_url (Tickers tickers) ->
  Z.of_nat (length (usdtPairs symbols)) <= default 300 limit ->
  exists ts,
    fetchTopTokens fetch limit = Normal ts /\
    ts ≡ₚ token_of tickers <$> usdtPairs symbols.
Proof.
  intros H1 H2 Hn. eexists. split; [by apply fetchTopTokens_succeeds |].
  unfold ranked_tokens. cbv zeta. rewrite sortedPairs_all by done.
  rewrite sort_Permutation, <- list_fmap_compose. done.
Qed.

Lemma fetchTopTokens_complete_witness :
  exists ts,
    fetchTopTokens sample_exchange None = Normal ts /\
    ts ≡ₚ token_of sample_tickers <$>
            [usdt_pair "XYZ"; usdt_pair "LTC"; usdt_pair "BTC"; usdt_pair "ABC";
             usdt_pair "DOGE"].
Proof.
  apply (fetchTopTokens_complete sample_exchange None sample_symbols sample_tickers
           eq_refl eq_refl).
  vm_compute. discriminate.
Defined.

(** ** Ties keep the order of the catalog *)

Lemma sort_insert_sublist {A} (comparefn : A -> A -> number) (x : A) (l : list A) :
  l `sublist_of` sort_insert comparefn x l.
Proof.
  induction l as [| y r IH]; cbn [sort_insert]; [by apply sublist_nil_l |].
  destruct (num_gt _ _); [by apply sublist_skip | by apply sublist_cons].
Qed.

Lemma singleton_sublist {A} (b : A) (l : list A) : b ∈ l -> [b] `sublist_of` l.
Proof.
  intros H. apply list_elem_of_split in H as (l1 & l2 & ->).
  apply sublist_inserts_l, sublist_skip, sublist_nil_l.
Qed.

Lemma sort_insert_before {A} (comparefn : A -> A -> number) (x b : A) (l : list A) :
  b ∈ l -> num_gt (SortCompare comparefn x b) zero = false ->
  [x; b] `sublist_of` sort_insert comparefn x l.
Proof.
  intros Hb Hx. induction l as [| y r IH]; [by apply elem_of_nil in Hb |].
  cbn [sort_insert].
  destruct (num_gt (SortCompare comparefn x y) zero) eqn:E.
  - apply sublist_cons, IH. apply elem_of_cons in Hb as [-> | Hb]; [congruence | done].
  - by apply sublist_skip, singleton_sublist.
Qed.

(** An element is not moved behind a later one unless it compares greater. *)
Lemma sort_keeps_order {A} (comparefn : A -> A -> number) (l1 l2 l3 : list A) (a b : A) :
  num_gt (SortCompare comparefn a b) zero = false ->
  [a; b] `sublist_of` sort comparefn (l1 ++ a :: l2 ++ b :: l3).
Proof.
  intros H. induction l1 as [| x l1 IH].
  - cbn [app sort foldr]. fold (sort comparefn (l2 ++ b :: l3)).
    apply sort_insert_before; [| done].
    rewrite sort_Permutation. set_solver.
  - cbn [app sort foldr]. fold (sort comparefn (l1 ++ a :: l2 ++ b :: l3)).
    etrans; [exact IH | apply sort_insert_sublist].
Qed.

Lemma compare_ranked_keeps tickerMap (a b : BinancePair.t) :
  (is_major (BinancePair.baseAsset b) = true ->
   is_major (BinancePair.baseAsset a) = true) ->
  (is_major (BinancePair.baseAsset a) = is_major (BinancePair.baseAsset b) ->
   num_gt (Ranked.volume (rank_pair tickerMap b))
          (Ranked.volume (rank_pair tickerMap a)) = false) ->
  num_gt (SortCompare compare_ranked (rank_pair tickerMap a) (rank_pair tickerMap b))
         zero = false.
Proof.
  intros Hm Hv.
  rewrite compare_ranked_positive by apply rank_pair_priority_set.
  unfold ranked_major. cbn [rank_pair Ranked.pair].
  destruct (is_major (BinancePair.baseAsset a)) eqn:Ea,
           (is_major (BinancePair.baseAsset b)) eqn:Eb; try done.
  - rewrite num_sub_positive by apply parseFloat_string_well_formed. by apply Hv.
  - by specialize (Hm eq_refl).
  - rewrite num_sub_positive by apply parseFloat_string_well_formed. by apply Hv.
Qed.

(** X13.  Ties keep the order of the catalog where the comparison function
    is consistent, which is where ECMAScript fixes the order of the sort.
    When no instrument that passes the filter has a volume that is NaN and
    the limit cuts nothing off, two instruments that pass the filter keep the
    order the catalog lists them in, unless the later one has the priority
    or, inside one priority, the strictly greater volume: in particular two
    instruments of one priority with equal volumes are not swapped. *)
Theorem fetchTopTokens_stable (fetch : Network) (limit : option Z)
    (tickers : list BinanceTicker.t) (l1 l2 l3 : list BinancePair.t)
    (a b : BinancePair.t) :
  let symbols := l1 ++ a :: l2 ++ b :: l3 in
  succeeds fetch exchangeInfo_url (ExchangeInfo symbols) ->
  succeeds fetch ticker24hr_url (Tickers tickers) ->
  Forall (fun pair => is_nan (Token.volume_24h (token_of tickers pair)) = false)
         (usdtPairs symbols) ->
  Z.of_nat (length (usdtPairs symbols)) <= default 300 limit ->
  is_usdt_pair a = true -> is_usdt_pair b = true ->
  (is_major (BinancePair.baseAsset b) = true ->
   is_major (BinancePair.baseAsset a) = true) ->
  (is_major (BinancePair.baseAsset a) = is_major (BinancePair.baseAsset b) ->
   num_gt (Token.volume_24h (token_of tickers b))
          (Token.volume_24h (token_of tickers a)) = false) ->
  exists ts,
    fetchTopTokens fetch limit = Normal ts /\
    [token_of tickers a; token_of tickers b] `sublist_of` ts.
Proof.
  intros symbols H1 H2 _ Hn Ha Hb Hm Hv.
  eexists. split; [by apply fetchTopTokens_succeeds |].
  unfold ranked_tokens. cbv zeta. rewrite sortedPairs_all by done.
  set (tm := make_tickerMap tickers).
  change [token_of tickers a; token_of tickers b]
    with (to_token tm <$> [rank_pair tm a; rank_pair tm b]).
  apply fmap_sublist.
  unfold usdtPairs, symbols.
  rewrite filter_app, filter_cons_True by by apply Is_true_true.
  rewrite filter_app, filter_cons_True by by apply Is_true_true.
  rewrite fmap_app, fmap_cons, fmap_app, fmap_cons.
  apply sort_keeps_order, compare_ranked_keeps; done.
Qed.

Lemma fetchTopTokens_stable_witness :
  exists ts,
    fetchTopTokens (exchange tie_symbols tie_tickers) None = Normal ts /\
    [token_of tie_tickers (usdt_pair "ZZZ"); token_of tie_tickers (usdt_pair "AAA")]
      `sublist_of` ts.
Proof.
  apply (fetchTopTokens_stable (exchange tie_symbols tie_tickers) None tie_tickers
           [] [] [] (usdt_pair "ZZZ") (usdt_pair "AAA")).
  - reflexivity.
  - reflexivity.
  - assert (E : usdtPairs ([] ++ usdt_pair "ZZZ" :: [] ++ usdt_pair "AAA" :: []) =
                [usdt_pair "ZZZ"; usdt_pair "AAA"]) by (vm_compute; reflexivity).
    rewrite E.
    constructor; [vm_compute; reflexivity |].
    constructor; [vm_compute; reflexivity | constructor].
  - vm_compute. discriminate.
  - reflexivity.
  - reflexivity.
  - intros H. vm_compute in H. discriminate H.
  - intros _. vm_compute. reflexivity.
Defined.

(** ** The fields of a token that do not come from the ticker *)

(** X14.  In every token of every result the display symbol and the name are
    the base asset, the image is the logo address made of the base asset in
    lower case, the rank is 0 and the quote asset is USDT. *)
Theorem fetchTopTokens_display_fields (fetch : Network) (limit : option Z)
    (ts : list Token.t) (t : Token.t) :
  fetchTopTokens fetch limit = Normal ts -> t ∈ ts ->
  Token.symbol t = Token.baseAsset t /\
  Token.name t = Token.baseAsset t /\
  Token.image t =
    "https://cryptologos.cc/logos/" +:+ toLowerCase (Token.baseAsset t) +:+ "-logo.png" /\
  Token.market_cap_rank t = zero /\
  Token.quoteAsset t = "USDT"%string.
Proof.
  intros Hts Hin.
  destruct (fetchTopTokens_cases fetch limit) as [(symbols & tickers & _ & _ & H) | H];
    rewrite H in Hts; injection Hts as <-; [| by apply elem_of_nil in Hin].
  apply list_elem_of_lookup in Hin as [i Hi].
  apply ranked_tokens_lookup in Hi as (r & pair & _ & _ & Hp & -> & ->).
  cbn [to_token rank_pair Ranked.pair Token.symbol Token.name Token.image
       Token.market_cap_rank Token.quoteAsset Token.baseAsset].
  split_and!; try done.
  unfold is_usdt_pair in Hp. rewrite !andb_true_iff in Hp.
  destruct Hp as [[[Hq _] _] _]. by apply String.eqb_eq in Hq.
Qed.

Lemma fetchTopTokens_display_fields_witness :
  Token.symbol doge_token = "DOGE"%string /\
  Token.name doge_token = "DOGE"%string /\
  Token.image doge_token = "https://cryptologos.cc/logos/doge-logo.png"%string /\
  Token.market_cap_rank doge_token = zero /\
  Token.quoteAsset doge_token = "USDT"%string.
Proof.
  apply (fetchTopTokens_display_fields sample_exchange None sample_tokens doge_token).
  - exact sample_exchange_tokens.
  - vm_compute. set_solver.
Defined.

(** ** The message handler: what it throws and what it dispatches *)

(** X15.  The handler throws exactly on a text that is not JSON, on the JSON
    text [null], and, where [window] is defined, on a body with a truthy
    [data] whose [c] ToString does not convert (an object with a member
    [toString], or an array that holds one); then it dispatches nothing.  On
    every other message it completes, dispatching at most one event, of the
    type [priceUpdate], and none where [window] is not defined. *)
Theorem onmessage_outcomes (env : Env) (parsed : completion json) :
  (forall e, parsed = Throw e -> onmessage env parsed = Throw e) /\
  (parsed = Normal JNull -> onmessage env parsed = Throw TypeError) /\
  (forall data, parsed = Normal data -> data <> JNull ->
     exists payload,
       get (Some data) "data" = Normal payload /\
       (window_defined env = true -> ToBoolean payload = true ->
        exists c, get payload "c" = Normal c /\
                  (value_printable c = false ->
                   onmessage env parsed = Throw TypeError) /\
                  (value_printable c = true ->
                   exists detail,
                     onmessage env parsed = Normal [CustomEvent "priceUpdate" detail])) /\
       (window_defined env = false \/ ToBoolean payload = false ->
        onmessage env parsed = Normal [])).
Proof.
  unfold onmessage, mbind, completion_bind, mret, completion_ret.
  split_and!.
  - by intros e ->.
  - by intros ->.
  - intros data -> Hne.
    destruct (get_not_null data "data" Hne) as [payload ->].
    exists payload. split_and!; [done | |].
    + intros -> Ht. rewrite Ht.
      destruct (get_truthy payload "s" Ht) as [s ->].
      destruct (get_truthy payload "c" Ht) as [c ->].
      exists c. split_and!; [done | |].
      * intros Hp. by rewrite (parseFloat_unprintable c Hp).
      * intros Hp. destruct (parseFloat_printable c Hp) as [price ->]. by eexists.
    + intros [-> | ->]; [by destruct (ToBoolean payload) | done].
Qed.

Lemma onmessage_outcomes_witness :
  onmessage browser (Normal JNull) = Throw TypeError /\
  onmessage browser (Throw SyntaxError) = Throw SyntaxError /\
  onmessage browser (Normal unprintable_message) = Throw TypeError /\
  onmessage no_window (Normal unprintable_message) = Normal [].
Proof.
  destruct (onmessage_outcomes browser (Normal JNull)) as (_ & H2 & _).
  destruct (onmessage_outcomes browser (Throw SyntaxError)) as (H1 & _ & _).
  destruct (onmessage_outcomes browser (Normal unprintable_message)) as (_ & _ & H3).
  destruct (onmessage_outcomes no_window (Normal unprintable_message)) as (_ & _ & H4).
  split_and!; [exact (H2 eq_refl) | exact (H1 _ eq_refl) | |].
  - destruct (H3 unprintable_message eq_refl ltac:(discriminate))
      as (payload & Hp & H & _).
    injection Hp as <-.
    destruct (H eq_refl eq_refl) as (c & Hc & Hthrow & _).
    injection Hc as <-. exact (Hthrow eq_refl).
  - destruct (H4 unprintable_message eq_refl ltac:(discriminate))
      as (payload & _ & _ & H).
    exact (H (or_introl eq_refl)).
Defined.

(** ** What every reachable state of the stream handle satisfies *)

Lemma close_socket_continues (s : WebSocket) : continues s (close_socket s).
Proof. unfold continues, close_socket, live. by destruct s as [u [] h]. Qed.

Lemma continues_refl (s : WebSocket) : continues s s.
Proof. done. Qed.

Lemma continues_trans (s1 s2 s3 : WebSocket) :
  continues s1 s2 -> continues s2 s3 -> continues s1 s3.
Proof.
  unfold continues. intros (H1 & H2 & H3) (H4 & H5 & H6).
  split_and!; [congruence | congruence | auto].
Qed.

Lemma close_previous_continues (st : State) (i : nat) (s : WebSocket) :
  sockets st !! i = Some s ->
  exists s', sockets (close_previous st) !! i = Some s' /\ continues s s'.
Proof.
  intros Hs. unfold close_previous. destruct (ws st) as [old |]; [| by exists s].
  cbn [ws_close sockets]. destruct (decide (i = old)) as [-> | Hne].
  - rewrite list_lookup_alter_eq, Hs. cbn [fmap option_fmap option_map].
    eexists. split; [reflexivity | apply close_socket_continues].
  - rewrite list_lookup_alter_ne by done. by exists s.
Qed.

Lemma closeWebSocket_sockets (st : State) :
  sockets (closeWebSocket st) = sockets (close_previous st).
Proof. unfold closeWebSocket, close_previous. by destruct (ws st). Qed.

Lemma step_continues (env : Env) (st st' : State) (i : nat) (s : WebSocket) :
  step env st st' -> sockets st !! i = Some s ->
  exists s', sockets st' !! i = Some s' /\ continues s s'.
Proof.
  intros Hstep Hs. destruct Hstep as [symbols st | st | st j t rs Ht Hmove].
  - destruct (close_previous_continues st i s Hs) as (s' & Hs' & Hc).
    exists s'. split; [| done].
    rewrite initializeWebSocket_unfold. cbv zeta.
    destruct (accepts_url env (stream_url symbols)); cbn [snd sockets]; [| done].
    by apply lookup_app_l_Some.
  - rewrite closeWebSocket_sockets. by apply close_previous_continues.
  - cbn [sockets]. destruct (decide (i = j)) as [-> | Hne].
    + rewrite list_lookup_insert_eq by (by eapply lookup_lt_Some).
      eexists. split; [reflexivity |].
      assert (t = s) as Heq by congruence. subst t.
      split_and!; [done | done |].
      unfold live. cbn [readyState].
      inversion Hmove as [Hc Ho | rs' Hn Hc Ho | rs' Hn Hc Ho]; subst rs;
        [| done | done].
      by destruct (readyState s).
    + rewrite list_lookup_insert_ne by done. by exists s.
Qed.

(** X16.  Whatever the module and its environment do afterwards, a connection
    object stays under its handle with its URL and its message handler, and
    one that is closing or closed never becomes live again: the module
    reconnects nothing. *)
Theorem connections_never_revive (env : Env) (st st' : State) (i : nat) (s : WebSocket) :
  rtc (step env) st st' -> sockets st !! i = Some s ->
  exists s',
    sockets st' !! i = Some s' /\
    url s' = url s /\ has_onmessage s' = has_onmessage s /\
    (live s = false -> live s' = false).
Proof.
  intros Hsteps. revert s.
  induction Hsteps as [st | st st1 st' Hstep _ IH]; intros s Hs; [by exists s |].
  destruct (step_continues env st st1 i s Hstep Hs) as (s1 & Hs1 & Hc1).
  destruct (IH s1 Hs1) as (s' & Hs' & Hc').
  exists s'. split; [done |].
  by apply (continues_trans s s1 s').
Qed.

Lemma connections_never_revive_witness :
  exists s',
    sockets (snd (initializeWebSocket browser ["SOLUSDT"%string] two_streams)) !! 0%nat
      = Some s' /\
    url s' = stream_url ["BTCUSDT"; "ETHUSDT"]%string /\
    has_onmessage s' = true.
Proof.
  destruct (connections_never_revive browser two_streams
              (snd (initializeWebSocket browser ["SOLUSDT"%string] two_streams))
              0%nat (mkWebSocket (stream_url ["BTCUSDT"; "ETHUSDT"]%string)
                       CONNECTING true))
    as (s' & H1 & H2 & H3 & _).
  - apply rtc_once. apply step_initialize.
  - reflexivity.
  - exists s'. split_and!; [exact H1 | exact H2 | exact H3].
Defined.

Lemma step_subscribed (env : Env) (st st' : State) :
  step env st st' ->
  (forall i s, sockets st !! i = Some s -> subscribed s) ->
  forall i s, sockets st' !! i = Some s -> subscribed s.
Proof.
  intros Hstep Hinv. 
  assert (Hprev : forall i s, sockets (close_previous st) !! i = Some s -> subscribed s).
  { intros i s. unfold close_previous. destruct (ws st) as [old |]; [| by apply Hinv].
    cbn [ws_close sockets]. destruct (decide (i = old)) as [-> | Hne].
    - rewrite list_lookup_alter_eq.
      destruct (sockets st !! old) as [s0 |] eqn:E; [| done].
      intros [= <-]. specialize (Hinv old s0 E).
      unfold subscribed, close_socket in *. by destruct s0 as [u [] h].
    - rewrite list_lookup_alter_ne by done. by apply Hinv. }
  destruct Hstep as [symbols st | st | st j t rs Ht Hmove].
  - rewrite initializeWebSocket_unfold. cbv zeta.
    destruct (accepts_url env (stream_url symbols)); cbn [snd sockets]; [| done].
    intros i s Hs. apply lookup_app_Some in Hs as [Hs | [_ Hs]]; [by eapply Hprev |].
    apply list_lookup_singleton_Some in Hs as [_ <-].
    split; [done | by exists symbols].
  - rewrite closeWebSocket_sockets. exact Hprev.
  - cbn [sockets]. intros i s. destruct (decide (i = j)) as [-> | Hne].
    + rewrite list_lookup_insert_eq by (by eapply lookup_lt_Some).
      intros [= <-]. exact (Hinv j t Ht).
    + rewrite list_lookup_insert_ne by done. by apply Hinv.
Qed.

Lemma step_none_leaked (env : Env) (st st' : State) :
  step env st st' -> none_leaked st -> none_leaked st'.
Proof.
  intros Hstep Hinv.
  assert (Hprev : forall h u, CallNew h u ∈ calls (close_previous st) ->
                              CallClose h ∈ calls (close_previous st)).
  { intros h u. unfold close_previous. destruct (ws st) as [old |] eqn:Hws.
    - cbn [ws_close calls]. rewrite !elem_of_app, !list_elem_of_singleton.
      intros [H | H]; [| done].
      destruct (Hinv h u H) as [Hh | Hh]; [right; congruence | by left].
    - intros H. destruct (Hinv h u H) as [Hh | Hh]; [congruence | done]. }
  destruct Hstep as [symbols st | st | st j t rs Ht Hmove].
  - rewrite initializeWebSocket_unfold. cbv zeta.
    destruct (accepts_url env (stream_url symbols)); cbn [snd].
    + intros h u. cbn [calls ws]. rewrite !elem_of_app, !list_elem_of_singleton.
      intros [H | [= -> ->]]; [| by left].
      right. left. by apply (Hprev h u).
    + intros h u H. right. by apply (Hprev h u).
  - intros h u H. right. revert H. unfold closeWebSocket.
    pose proof (Hprev h u) as Hp. unfold close_previous in Hp.
    destruct (ws st); cbn [calls ws_close] in *; exact Hp.
  - exact Hinv.
Qed.

(** X17.  In every state that the module can reach, each connection object
    carries the message handler and the URL of the ticker streams of some
    list of symbols; and no connection leaks: each one that was constructed
    is the one the module variable holds, or [close] has been called on it. *)
Theorem reachable_connections (env : Env) (st : State) :
  reachable env st ->
  (forall i s, sockets st !! i = Some s ->
     has_onmessage s = true /\ exists symbols, url s = stream_url symbols) /\
  (forall h u, CallNew h u ∈ calls st -> ws st = Some h \/ CallClose h ∈ calls st).
Proof.
  induction 1 as [| st st' _ [IH1 IH2] Hstep].
  - split.
    + intros i s Hs. cbn [initial_state sockets] in Hs. by rewrite lookup_nil in Hs.
    + intros h u H. cbn [initial_state calls] in H. by apply elem_of_nil in H.
  - split.
    + by apply (step_subscribed env st st').
    + by apply (step_none_leaked env st st').
Qed.

Lemma reachable_connections_witness :
  ws two_streams = Some 0%nat /\
  sockets two_streams !! 0%nat =
    Some (mkWebSocket (stream_url ["BTCUSDT"; "ETHUSDT"]%string) CONNECTING true) /\
  has_onmessage (mkWebSocket (stream_url ["BTCUSDT"; "ETHUSDT"]%string) CONNECTING true)
    = true.
Proof.
  destruct (reachable_connections browser two_streams two_streams_reachable) as [H _].
  split_and!; [reflexivity | reflexivity |].
  exact (proj1 (H 0%nat _ eq_refl)).
Defined.

(** ** A constructor that throws, and opening then closing *)

(** X18.  When the constructor refuses the URL, [initializeWebSocket]
    completes with its exception after the handle held before was closed:
    the module variable still names that closed connection, no connection was
    constructed, and from a reachable state no connection is live. *)
Theorem initializeWebSocket_constructor_throws (env : Env) (st : State)
    (symbols : list string) :
  accepts_url env (stream_url symbols) = false ->
  let st' := snd (initializeWebSocket env symbols st) in
  fst (initializeWebSocket env symbols st) = Throw SyntaxError /\
  ws st' = ws st /\
  length (sockets st') = length (sockets st) /\
  (forall h u, CallNew h u ∈ calls st' -> CallNew h u ∈ calls st) /\
  (reachable env st -> no_live st').
Proof.
  intros Hu. cbv zeta. rewrite initializeWebSocket_unfold. cbv zeta.
  rewrite Hu. cbn [fst snd].
  split_and!; [done | apply close_previous_ws | apply close_previous_length | |].
  - intros h u. unfold close_previous. destruct (ws st); [| done].
    cbn [ws_close calls]. rewrite elem_of_app, list_elem_of_singleton.
    by intros [H | H].
  - intros Hreach. apply close_previous_no_live.
    by apply (reachable_invariant env).
Qed.

Lemma initializeWebSocket_constructor_throws_witness :
  fst (initializeWebSocket refusing ["BTCUSDT"%string] initial_state) = Throw SyntaxError /\
  ws (snd (initializeWebSocket refusing ["BTCUSDT"%string] initial_state)) = None.
Proof.
  destruct (initializeWebSocket_constructor_throws refusing initial_state
              ["BTCUSDT"%string] eq_refl) as (H1 & H2 & _).
  split; [exact H1 | exact H2].
Defined.

(** X19.  Opening a stream and closing it again, from any reachable state,
    leaves the module variable cleared and no connection live, whether the
    constructor accepted the URL or threw; when it accepted, [close] is the
    last call, made on the connection just opened. *)
Theorem open_then_close (env : Env) (st : State) (symbols : list string) :
  reachable env st ->
  let opened := initializeWebSocket env symbols st in
  let st' := closeWebSocket (snd opened) in
  ws st' = None /\
  no_live st' /\
  (forall handle, fst opened = Normal handle ->
     calls st' = calls (snd opened) ++ [CallClose handle] /\
     exists s, sockets st' !! handle = Some s /\
               url s = stream_url symbols /\ readyState s = CLOSING).
Proof.
  intros Hreach. cbv zeta.
  destruct (reachable_invariant env st Hreach) as [_ Hinv].
  pose proof (initializeWebSocket_invariant env symbols st Hinv) as Hinv'.
  split_and!.
  - unfold closeWebSocket.
    by destruct (ws (snd (initializeWebSocket env symbols st))) eqn:E.
  - by apply closeWebSocket_no_live.
  - intros handle. rewrite initializeWebSocket_unfold. cbv zeta.
    destruct (accepts_url env (stream_url symbols)); cbn [fst snd]; [| done].
    intros [= <-]. unfold closeWebSocket. cbn [ws ws_close sockets calls].
    split; [done |].
    eexists. split.
    + rewrite list_lookup_alter_eq, lookup_app_r, Nat.sub_diag by done.
      reflexivity.
    + done.
Qed.

Lemma open_then_close_witness :
  ws (closeWebSocket two_streams) = None /\ no_live (closeWebSocket two_streams).
Proof.
  destruct (open_then_close browser initial_state ["BTCUSDT"; "ETHUSDT"]%string
              (reachable_initial browser)) as (H1 & H2 & _).
  split; [exact H1 | exact H2].
Defined.

(** ** The subscription path and the percentage *)

(** X20.  [initializeWebSocket] reads its symbols up to the case of their
    letters: the symbols in lower case give the same URL.  The channel it
    subscribes to for one symbol is the one [getPriceWebSocketUrl] names. *)
Theorem stream_url_case (symbols : list string) (symbol : string) :
  stream_url (toLowerCase <$> symbols) = stream_url symbols /\
  getPriceWebSocketUrl symbol =
    "wss://stream.binance.com:9443/ws/" +:+ streams_of [symbol] /\
  stream_url [symbol] =
    "wss://stream.binance.com:9443/stream?streams=" +:+ toLowerCase symbol +:+ "@ticker".
Proof.
  split_and!; [| done | done].
  unfold stream_url, streams_of. do 2 f_equal.
  rewrite <- list_fmap_compose. apply list_fmap_ext.
  intros i s _. cbn. by rewrite toLowerCase_idemp.
Qed.

(** X21.  [formatPercentage] of a number that is not NaN and whose magnitude
    is below 10^21 is a sign, at least one digit, a point, exactly two
    fraction digits and the percent sign; the sign is [+] for a number
    greater than 0, [-] for one smaller than 0, and absent for 0. *)
Theorem formatPercentage_shape (percentage : number) :
  below_1e21 percentage ->
  exists int frac,
    formatPercentage percentage =
      (if num_gt percentage zero then "+"
       else if num_lt percentage zero then "-" else "")
      +:+ int +:+ "." +:+ frac +:+ "%" /\
    all_units is_digit int = true /\ all_units is_digit frac = true /\
    (1 <= String.length int)%nat /\ String.length frac = 2%nat.
Proof.
  intros H.
  destruct (toFixed_shape percentage 2 ltac:(lia) H) as (int & frac & E & Hrest).
  exists int, frac. split; [| exact Hrest].
  unfold formatPercentage. rewrite E.
  destruct percentage as [s | | | s m e]; try done; destruct s; cbn;
    rewrite ?append_assoc; reflexivity.
Qed.

Lemma formatPercentage_shape_witness :
  exists int frac,
    formatPercentage (parseFloat_string "-1.2") =
      "-" +:+ int +:+ "." +:+ frac +:+ "%" /\
    all_units is_digit int = true /\ all_units is_digit frac = true /\
    (1 <= String.length int)%nat /\ String.length frac = 2%nat.
Proof.
  apply (formatPercentage_shape (parseFloat_string "-1.2")).
  vm_compute. reflexivity.
Defined.
